(** * Quiz Vocacional Jurídico ([app.py]): a shallow embedding and its properties

    The program is a Streamlit script.  The parts that carry logic are
    embedded here as Rocq functions:

    - [Scorer.calcular_resultados]      (tally and winner),
    - [Narrative.get_gemini_descricao]  (static description with optional expansion),
    - [ResultLog.salvar_resultado_csv]  (one record appended to the CSV log),
    - [QuestionStore.carregar_perguntas] (the question resource),
    - [Dashboard.dashboard]             (the aggregate view),
    - [Report.gerar_pdf_relatorio]      (the calls that build the report),
    - [Quiz.enviar]                     (the block run on submission).

    Python values are modelled as follows.  [int] counters that start at 0
    and are only incremented are [nat]; [str] is [string] (the UTF-8 bytes
    of the text); a [dict] is an association list in insertion order, which
    is the order Python iterates it in; [float] results of [/] and [*] are
    exact rationals [Q]; a call that may raise returns a [result]. *)

From Stdlib Require Import String Ascii List Arith ZArith QArith Lia Bool.
From Stdlib Require Import DecimalString Sorted Permutation Relations.
Import ListNotations.
Set Warnings "-register-all".
Close Scope Q_scope.
Open Scope string_scope.
Open Scope list_scope.
Open Scope nat_scope.

(* ================================================================= *)
(** * Python primitives used by the script *)

Module Py.

(** Exceptions the script can meet.  All of them derive from
    [Exception]; [OtherException] stands for what third-party calls raise
    (network errors, time-outs, API errors). *)
Inductive exn : Type :=
| FileNotFoundError
| JSONDecodeError
| KeyError
| TypeError
| ValueError
| AttributeError
| OtherException (msg : string).

Inductive result (A : Type) : Type :=
| Ok (a : A)
| Raise (e : exn).
Arguments Ok {A} a.
Arguments Raise {A} e.

Definition bind {A B} (m : result A) (k : A -> result B) : result B :=
  match m with
  | Ok a => k a
  | Raise e => Raise e
  end.

Notation "x <- m ;; k" := (bind m (fun x => k))
  (at level 61, m at next level, right associativity).

(** [try: m  except Exception: h] *)
Definition try_except {A} (m : result A) (h : result A) : result A :=
  match m with
  | Ok a => Ok a
  | Raise _ => h
  end.

(** [for x in l: s = body x s], stopping at the first exception. *)
Fixpoint for_each {A S} (body : A -> S -> result S) (l : list A) (s : S)
  : result S :=
  match l with
  | [] => Ok s
  | x :: l' => s' <- body x s ;; for_each body l' s'
  end.

(** An insertion-ordered [dict]. *)
Definition dict (K V : Type) : Type := list (K * V).

Definition keys {K V} (d : dict K V) : list K := map fst d.
Definition values {K V} (d : dict K V) : list V := map snd d.

(** [d.get(k)] for [str] keys: [None] when the key is absent. *)
Fixpoint dict_get {V} (k : string) (d : dict string V) : option V :=
  match d with
  | [] => None
  | (k', v) :: d' => if String.eqb k k' then Some v else dict_get k d'
  end.

(** [d[k]]: [KeyError] when the key is absent. *)
Definition dict_index {V} (d : dict string V) (k : string) : result V :=
  match dict_get k d with
  | Some v => Ok v
  | None => Raise KeyError
  end.

(** [d[k] = v]: an existing key keeps its position, a new one goes last. *)
Fixpoint dict_set {V} (k : string) (v : V) (d : dict string V)
  : dict string V :=
  match d with
  | [] => [(k, v)]
  | (k', v') :: d' =>
      if String.eqb k k' then (k', v) :: d' else (k', v') :: dict_set k v d'
  end.

(** Truth value of a [str]: only the empty string is false. *)
Definition truthy (s : string) : bool :=
  match s with
  | EmptyString => false
  | String _ _ => true
  end.

(** [sum] over [int]s that are counters. *)
Definition sum (l : list nat) : nat := fold_right Nat.add 0 l.

(** The scan of [max(iterable, key=...)]: the candidate is replaced only
    by an element whose key is strictly greater, so the first of several
    maximal elements is kept. *)
Fixpoint max_loop {A} (key : A -> nat) (best : A) (l : list A) : A :=
  match l with
  | [] => best
  | x :: l' =>
      if Nat.ltb (key best) (key x) then max_loop key x l'
      else max_loop key best l'
  end.

(** [max(d, key=d.get)]: iterating a dict yields its keys in insertion
    order, and [d.get] of a key of [d] is the value stored with it, so the
    scan runs over the items and compares their values.  An empty dict
    gives [ValueError]. *)
Definition max_by_get (d : dict string nat) : result string :=
  match d with
  | [] => Raise ValueError
  | x :: l => Ok (fst (max_loop snd x l))
  end.

End Py.

Import Py.

(* ================================================================= *)
(** * Scorer *)

Module Scorer.

Definition CARREIRAS : dict string string :=
  [ ("advocacia", "Advocacia");
    ("magistratura", "Magistratura");
    ("ministerio_publico", "Ministério Público");
    ("consultoria", "Consultoria Jurídica") ].

(** [resultados[r] += 1] *)
Definition incrementa (r : string) (resultados : dict string nat)
  : result (dict string nat) :=
  n <- dict_index resultados r ;;
  Ok (dict_set r (n + 1) resultados).

(** The body of the loop over [respostas.values()]. *)
Definition conta (r : string) (resultados : dict string nat)
  : result (dict string nat) :=
  if truthy r then incrementa r resultados else Ok resultados.

(** [calcular_resultados(respostas)].  [respostas] maps a question
    identifier (of any type [I]) to the code chosen for it. *)
Definition calcular_resultados {I} (respostas : dict I string)
  : result (dict string nat * string) :=
  let resultados := map (fun c => (c, 0)) (keys CARREIRAS) in
  resultados <- for_each conta (values respostas) resultados ;;
  carreira_final <- max_by_get resultados ;;
  Ok (resultados, carreira_final).

(** A ResponseSet in the sense of the data model: every selected value is
    a code of the fixed category set. *)
Definition response_set {I} (respostas : dict I string) : Prop :=
  Forall (fun r => In r (keys CARREIRAS)) (values respostas).

(** The inputs on which the loop meets no unknown key: empty selections
    are skipped by the guard, all others must be category codes. *)
Definition respostas_aceitas {I} (respostas : dict I string) : Prop :=
  Forall (fun r => truthy r = false \/ In r (keys CARREIRAS))
         (values respostas).

End Scorer.

(* ================================================================= *)
(** * Narrative Provider *)

Module Narrative.
Import Scorer.

Definition DESCRICOES_BASE : dict string string :=
  [ ("advocacia",
     ("A Advocacia envolve a defesa direta de interesses de clientes, atuação em audiências, "
      ++ "negociação de acordos e elaboração de peças processuais.")%string);
    ("magistratura",
     ("A Magistratura é marcada pela imparcialidade e responsabilidade de decidir casos que impactam "
      ++ "diretamente a vida das pessoas.")%string);
    ("ministerio_publico",
     ("O Ministério Público atua na defesa da ordem jurídica, do regime democrático e dos interesses "
      ++ "sociais e individuais indisponíveis.")%string);
    ("consultoria",
     ("A Consultoria Jurídica concentra-se na prevenção de conflitos, elaboração de pareceres e "
      ++ "estratégias jurídicas para empresas.")%string) ].

(** The white space of [str.strip()]: the code points for which
    [str.isspace] holds (U+0009..U+000D, U+001C..U+0020, U+0085, U+00A0,
    U+1680, U+2000..U+200A, U+2028, U+2029, U+202F, U+205F, U+3000), each
    given by its UTF-8 bytes, since a [str] is held as its UTF-8 bytes. *)
Definition isspace : list (list ascii) :=
  map (map ascii_of_nat)
    [ [9]; [10]; [11]; [12]; [13]; [28]; [29]; [30]; [31]; [32];
      [194; 133]; [194; 160];
      [225; 154; 128];
      [226; 128; 128]; [226; 128; 129]; [226; 128; 130]; [226; 128; 131];
      [226; 128; 132]; [226; 128; 133]; [226; 128; 134]; [226; 128; 135];
      [226; 128; 136]; [226; 128; 137]; [226; 128; 138];
      [226; 128; 168]; [226; 128; 169]; [226; 128; 175];
      [226; 129; 159];
      [227; 128; 128] ].

(** [l] without the leading bytes [p], when it starts with them. *)
Fixpoint sem_prefixo (p l : list ascii) : option (list ascii) :=
  match p with
  | [] => Some l
  | a :: p' =>
      match l with
      | [] => None
      | b :: l' => if Ascii.eqb a b then sem_prefixo p' l' else None
      end
  end.

(** [l] without one leading character of [chars], if it starts with one. *)
Fixpoint tira_um (chars : list (list ascii)) (l : list ascii)
  : option (list ascii) :=
  match chars with
  | [] => None
  | p :: chars' =>
      match sem_prefixo p l with
      | Some r => Some r
      | None => tira_um chars' l
      end
  end.

(** Dropping leading characters of [chars], at most [n] of them. *)
Fixpoint apara (chars : list (list ascii)) (n : nat) (l : list ascii)
  : list ascii :=
  match n with
  | 0 => l
  | S n' =>
      match tira_um chars l with
      | Some r => apara chars n' r
      | None => l
      end
  end.

(** [lstrip] and [rstrip] on the bytes; at the end of the text the bytes
    of a character are met in reverse. *)
Definition lstrip_bytes (l : list ascii) : list ascii :=
  apara isspace (length l) l.

Definition rstrip_bytes (l : list ascii) : list ascii :=
  rev (apara (map (@rev ascii) isspace) (length l) (rev l)).

Definition lstrip (s : string) : string :=
  string_of_list_ascii (lstrip_bytes (list_ascii_of_string s)).

Definition rstrip (s : string) : string :=
  string_of_list_ascii (rstrip_bytes (list_ascii_of_string s)).

(** [s.strip()] *)
Definition strip (s : string) : string :=
  string_of_list_ascii
    (rstrip_bytes (lstrip_bytes (list_ascii_of_string s))).

(** The object returned by [generate_content]: reading its [text]
    property may itself raise (a reply without usable parts). *)
Record resposta : Type := { text : result string }.

(** What the function reads from outside: whether the import of the
    client library succeeded, the two credential sources, and the calls
    into the client library. *)
Record ambiente : Type := {
  GEMINI_OK : bool;
  secrets_get : string -> result (option string);
  environ_get : string -> option string;
  genai_configure : string -> result unit;
  genai_GenerativeModel : string -> result unit;
  generate_content : string -> result resposta
}.

(** Truth value of a credential: [None] and the empty string are false. *)
Definition truthy_opt (k : option string) : bool :=
  match k with
  | None => false
  | Some s => truthy s
  end.

(** How an f-string renders the result of [dict.get]. *)
Definition fmt (v : option string) : string :=
  match v with
  | Some s => s
  | None => "None"
  end.

Definition nl : string := String (ascii_of_nat 10) EmptyString.

Definition linhas (ls : list string) : string :=
  fold_right (fun l acc => (l ++ nl ++ acc)%string) EmptyString ls.

Definition monta_prompt (carreira_codigo descricao_base : string) : string :=
  (linhas
     [ "";
       "        Você é um orientador vocacional jurídico.";
       "        Explique de forma detalhada a carreira de "
         ++ fmt (dict_get carreira_codigo CARREIRAS) ++ ".";
       "        ";
       "        Divida a resposta em:";
       "        1. Visão geral";
       "        2. Atividades típicas";
       "        3. Habilidades necessárias";
       "        4. Perfil ideal";
       "        5. Desafios da carreira";
       "        ";
       "        Texto base para expandir:";
       "        '" ++ descricao_base ++ "'" ]
   ++ "        ")%string.

(** The credential lookup: [st.secrets] first (any exception there counts
    as no key), then the process environment. *)
Definition obter_api_key (amb : ambiente) : option string :=
  let api_key :=
    match secrets_get amb "GEMINI_API_KEY" with
    | Ok k => k
    | Raise _ => None
    end in
  if negb (truthy_opt api_key) then environ_get amb "GEMINI_API_KEY"
  else api_key.

(** The body of the final [try] block. *)
Definition pedido (amb : ambiente) (api_key carreira_codigo descricao_base : string)
  : result string :=
  _ <- genai_configure amb api_key ;;
  _ <- genai_GenerativeModel amb "gemini-1.5-flash" ;;
  let prompt := monta_prompt carreira_codigo descricao_base in
  r <- generate_content amb prompt ;;
  t <- text r ;;
  Ok (strip t).

Definition get_gemini_descricao (amb : ambiente) (carreira_codigo : string)
  : result string :=
  let descricao_base :=
    match dict_get carreira_codigo DESCRICOES_BASE with
    | Some d => d
    | None => ""
    end in
  if negb (GEMINI_OK amb) then Ok descricao_base
  else
    match obter_api_key amb with
    | None => Ok descricao_base
    | Some api_key =>
        if negb (truthy api_key) then Ok descricao_base
        else
          try_except (pedido amb api_key carreira_codigo descricao_base)
                     (Ok descricao_base)
    end.

End Narrative.

(* ================================================================= *)
(** * Result Log *)

Module ResultLog.

(** A value held in a record or in a table cell. *)
Inductive cell : Type :=
| CStr (s : string)
| CInt (n : nat)
| CFloat (q : Q)
| CNaN.

(** [p / total * 100] on exact rationals. *)
Definition percentual (p total : nat) : Q :=
  (inject_Z (Z.of_nat p) / inject_Z (Z.of_nat total) * 100)%Q.

(** [x or 1] on an [int]: 0 is the only false value. *)
Definition or_1 (x : nat) : nat :=
  match x with
  | 0 => 1
  | _ => x
  end.

(** The record [linha] built by [salvar_resultado_csv]; [agora] is the
    value of [datetime.now().isoformat()]. *)
Definition monta_linha (agora nome : string) (resultados : dict string nat)
  (carreira_final : string) : dict string cell :=
  let total := or_1 (sum (values resultados)) in
  let linha :=
    [ ("timestamp", CStr agora);
      ("nome", CStr nome);
      ("carreira_final", CStr carreira_final) ] in
  fold_left
    (fun linha cp =>
       let '(c, p) := cp in
       let linha := dict_set ("pontos_" ++ c)%string (CInt p) linha in
       dict_set ("perc_" ++ c)%string (CFloat (percentual p total)) linha)
    resultados linha.

(** A table: column labels and rows of cells, one cell per column. *)
Record DataFrame : Type := {
  columns : list string;
  rows : list (list cell)
}.

(** [pd.DataFrame([linha])] *)
Definition DataFrame_of (linha : dict string cell) : DataFrame :=
  {| columns := keys linha; rows := [values linha] |}.

(** [len(df)] *)
Definition len (df : DataFrame) : nat := length (rows df).

Definition cell_at (cols : list string) (row : list cell) (c : string) : cell :=
  match dict_get c (combine cols row) with
  | Some v => v
  | None => CNaN
  end.

(** The rows of [df] laid out on the columns [cols]; a column [df] does
    not have is filled with NaN. *)
Definition reindex (cols : list string) (df : DataFrame) : list (list cell) :=
  map (fun row => map (cell_at (columns df) row) cols) (rows df).

(** The type pandas gives a concatenated column.  A column of text keeps
    its cells as they are ([object]); a column in which every cell is a
    number or NaN becomes [float64] as soon as one cell is a float or NaN,
    and then its integers are turned into floats. *)
Definition numerica (v : cell) : bool :=
  match v with
  | CStr _ => false
  | _ => true
  end.

Definition flutuante (v : cell) : bool :=
  match v with
  | CFloat _ | CNaN => true
  | _ => false
  end.

Definition para_float (v : cell) : cell :=
  match v with
  | CInt n => CFloat (inject_Z (Z.of_nat n))
  | _ => v
  end.

Definition promove (cols : list string) (linhas : list (list cell))
  (c : string) : bool :=
  forallb (fun row => numerica (cell_at cols row c)) linhas
  && existsb (fun row => flutuante (cell_at cols row c)) linhas.

Definition ajusta (cols : list string) (linhas : list (list cell))
  (row : list cell) : list cell :=
  map (fun c =>
         let v := cell_at cols row c in
         if promove cols linhas c then para_float v else v)
      cols.

(** [pd.concat([a, b], ignore_index=True)]: the columns of [a] followed by
    the columns only [b] has, the rows of [a] followed by the rows of [b],
    each column brought to its common type. *)
Definition concat (a b : DataFrame) : DataFrame :=
  let cols :=
    columns a ++
    filter (fun c => negb (existsb (String.eqb c) (columns a))) (columns b) in
  let linhas := reindex cols a ++ reindex cols b in
  {| columns := cols; rows := map (ajusta cols linhas) linhas |}.

(** The serialisation of a table to a CSV file and back belongs to
    pandas; the script is written against it.  [arquivo] is a file's
    content, and the state of the path [resultados.csv] is
    [option arquivo] ([None]: no such file). *)
Section Log.

Variable arquivo : Type.
Variable to_csv : DataFrame -> arquivo.
Variable read_csv : arquivo -> result DataFrame.

(** [pd.read_csv("resultados.csv")] *)
Definition pd_read_csv (fs : option arquivo) : result DataFrame :=
  match fs with
  | None => Raise FileNotFoundError
  | Some f => read_csv f
  end.

(** [try: m  except FileNotFoundError: h] *)
Definition except_FileNotFoundError {A} (m h : result A) : result A :=
  match m with
  | Raise FileNotFoundError => h
  | _ => m
  end.

(** [salvar_resultado_csv]: returns the new state of the log file. *)
Definition salvar_resultado_csv (fs : option arquivo) (agora nome : string)
  (resultados : dict string nat) (carreira_final : string)
  : result (option arquivo) :=
  let linha := monta_linha agora nome resultados carreira_final in
  let df_novo := DataFrame_of linha in
  df <- except_FileNotFoundError
          (df_antigo <- pd_read_csv fs ;; Ok (concat df_antigo df_novo))
          (Ok df_novo) ;;
  Ok (Some (to_csv df)).

(** One completed quiz as it reaches the log. *)
Record envio : Type := {
  agora : string;
  nome : string;
  resultados : dict string nat;
  carreira_final : string
}.

Definition linha_de (e : envio) : dict string cell :=
  monta_linha (agora e) (nome e) (resultados e) (carreira_final e).

(** Successive calls of [salvar_resultado_csv]. *)
Definition salvar_todos (envios : list envio) (fs : option arquivo)
  : result (option arquivo) :=
  for_each
    (fun e fs =>
       salvar_resultado_csv fs (agora e) (nome e) (resultados e)
                            (carreira_final e))
    envios fs.

End Log.

(** The percentage columns of a record and their total. *)
Definition colunas_perc (linha : dict string cell) : list Q :=
  flat_map
    (fun kv =>
       match kv with
       | (k, CFloat q) => if String.prefix "perc_" k then [q] else []
       | _ => []
       end)
    linha.

Definition soma_perc (linha : dict string cell) : Q :=
  fold_right Qplus 0%Q (colunas_perc linha).

End ResultLog.

(* ================================================================= *)
(** * Question Store *)

Module QuestionStore.

(** A parsed JSON document, as [json.load] returns it. *)
Inductive json : Type :=
| JNull
| JBool (b : bool)
| JInt (z : Z)
| JFloat (q : Q)
| JStr (s : string)
| JArr (l : list json)
| JObj (o : dict string json).

(** The file [perguntas.json] as [open] and [json.load] see it. *)
Inductive recurso : Type :=
| Ausente
| Ilegivel
| Documento (j : json).

(** [open(...)] followed by [json.load(f)] *)
Definition json_load (r : recurso) : result json :=
  match r with
  | Ausente => Raise FileNotFoundError
  | Ilegivel => Raise JSONDecodeError
  | Documento j => Ok j
  end.

(** [data[k]] with a [str] subscript: only a dict accepts it. *)
Definition getitem (data : json) (k : string) : result json :=
  match data with
  | JObj o => dict_index o k
  | _ => Raise TypeError
  end.

Definition carregar_perguntas (r : recurso) : result json :=
  data <- json_load r ;;
  getitem data "perguntas".

(** The defects of a question list the specification names. *)
Definition campo (k : string) (q : json) : option json :=
  match q with
  | JObj o => dict_get k o
  | _ => None
  end.

Definition faltam_campos (q : json) : bool :=
  match campo "id" q, campo "texto" q, campo "opcoes" q with
  | Some _, Some _, Some _ => false
  | _, _, _ => true
  end.

Definition opcoes_vazias (q : json) : bool :=
  match campo "opcoes" q with
  | Some (JObj []) => true
  | _ => false
  end.

Definition id_de (q : json) : option Z :=
  match campo "id" q with
  | Some (JInt z) => Some z
  | _ => None
  end.

Fixpoint ids_repetidos (qs : list json) : bool :=
  match qs with
  | [] => false
  | q :: qs' =>
      match id_de q with
      | Some z =>
          existsb (fun q' => match id_de q' with
                             | Some z' => Z.eqb z z'
                             | None => false
                             end) qs'
          || ids_repetidos qs'
      | None => ids_repetidos qs'
      end
  end.

End QuestionStore.

(* ================================================================= *)
(** * Dashboard Reader *)

Module Dashboard.
Import Scorer ResultLog.

(** What the script sends to the page. *)
Record entrada : Type := {
  carreira : cell;
  qtd : nat;
  Carreira : cell
}.

Inductive saida : Type :=
| st_write (s : string)
| st_plotly_chart (dist : list entrada)
| st_dataframe (df : DataFrame)
| st_info (s : string).

(** A block of the script: what it has shown so far, and how it ended. *)
Definition ui (A : Type) : Type := list saida * result A.

Definition lift {A} (r : result A) : ui A := ([], r).
Definition emit (s : saida) : ui unit := ([s], Ok tt).

Definition bind_ui {A B} (m : ui A) (k : A -> ui B) : ui B :=
  match m with
  | (o, Ok a) => let (o', r) := k a in (o ++ o', r)
  | (o, Raise e) => (o, Raise e)
  end.

Notation "x <~ m ;; k" := (bind_ui m (fun x => k))
  (at level 61, m at next level, right associativity).

(** [try: m  except FileNotFoundError: h]; what [m] has shown stays. *)
Definition try_FileNotFoundError {A} (m h : ui A) : ui A :=
  match m with
  | (o, Raise FileNotFoundError) => let (o', r) := h in (o ++ o', r)
  | _ => m
  end.

(** [str(n)] *)
Definition str_of_nat (n : nat) : string :=
  NilEmpty.string_of_uint (Nat.to_uint n).

(** [df[c]]: the cells of column [c], [KeyError] without such a column. *)
Definition coluna (df : DataFrame) (c : string) : result (list cell) :=
  if existsb (String.eqb c) (columns df)
  then Ok (map (fun row => cell_at (columns df) row c) (rows df))
  else Raise KeyError.

Definition isna (v : cell) : bool :=
  match v with
  | CNaN => true
  | _ => false
  end.

Definition numero (v : cell) : option Q :=
  match v with
  | CInt n => Some (inject_Z (Z.of_nat n))
  | CFloat q => Some q
  | _ => None
  end.

(** [==] on cell values; NaN equals nothing. *)
Definition cell_eqb (a b : cell) : bool :=
  match a, b with
  | CStr s, CStr t => String.eqb s t
  | _, _ =>
      match numero a, numero b with
      | Some p, Some q => Qeq_bool p q
      | _, _ => false
      end
  end.

(** The distinct values of a column in order of first appearance, NaN
    left out. *)
Fixpoint unicos (col : list cell) : list cell :=
  match col with
  | [] => []
  | x :: col' =>
      if isna x then unicos col'
      else x :: filter (fun y => negb (cell_eqb x y)) (unicos col')
  end.

Definition ocorrencias (v : cell) (col : list cell) : nat :=
  length (filter (cell_eqb v) col).

(** Insertion into a list that is in descending order of count; among
    equal counts the inserted element goes first. *)
Fixpoint insere (e : cell * nat) (l : list (cell * nat)) : list (cell * nat) :=
  match l with
  | [] => [e]
  | h :: t => if snd e <? snd h then h :: insere e t else e :: h :: t
  end.

Definition ordena (l : list (cell * nat)) : list (cell * nat) :=
  fold_right insere [] l.

(** [Series.value_counts()]: one entry per distinct non-NaN value with
    the number of rows holding it, in descending order of that number.
    pandas leaves the order among equal counts open; here it is the order
    of first appearance. *)
Definition value_counts (col : list cell) : list (cell * nat) :=
  ordena (map (fun v => (v, ocorrencias v col)) (unicos col)).

(** [Series.map(CARREIRAS)]: a value that is not a key becomes NaN. *)
Definition map_CARREIRAS (v : cell) : cell :=
  match v with
  | CStr c =>
      match dict_get c CARREIRAS with
      | Some label => CStr label
      | None => CNaN
      end
  | _ => CNaN
  end.

(** [dist]: the frame with the columns [carreira], [qtd], [Carreira]. *)
Definition distribuicao (col : list cell) : list entrada :=
  map (fun vn => {| carreira := fst vn; qtd := snd vn;
                    Carreira := map_CARREIRAS (fst vn) |})
      (value_counts col).

Section Painel.

Variable arquivo : Type.
Variable read_csv : arquivo -> result DataFrame.

(** The block under [with tabs[1]]. *)
Definition dashboard (fs : option arquivo) : ui unit :=
  try_FileNotFoundError
    (df <~ lift (pd_read_csv arquivo read_csv fs) ;;
     _ <~ emit (st_write ("Total de participantes: **"
                          ++ str_of_nat (len df) ++ "**")%string) ;;
     col <~ lift (coluna df "carreira_final") ;;
     let dist := distribuicao col in
     _ <~ emit (st_plotly_chart dist) ;;
     emit (st_dataframe df))
    (emit (st_info "Nenhum dado registrado ainda.")).

End Painel.

End Dashboard.

(* ================================================================= *)
(** * The CSV round trip of pandas, as far as the log needs it *)

Module Pandas.
Import ResultLog Dashboard.

(** Modelled from the documentation of pandas, not from the program:
    what [read_csv] makes of a file written by [to_csv], both with their
    default arguments.  A cell is written as text; on reading, the empty
    field and the markers of [na_values] are NaN, and each column gets
    one type: integers when every field spells one, floats when every
    field is a number or NaN, text otherwise.  Only unsigned decimal
    integers of at most 18 digits are recognised as numbers spelled in
    text; signs, decimal points, exponents, booleans and dates are not
    modelled, and the digits of a float are not worked out.  The
    theorems about the log do not use this instance: they hold for any
    serialisation. *)
Definition na_values : list string :=
  [ ""; "#N/A"; "#N/A N/A"; "#NA"; "-1.#IND"; "-1.#QNAN"; "-NaN"; "-nan";
    "1.#IND"; "1.#QNAN"; "<NA>"; "N/A"; "NA"; "NULL"; "NaN"; "None";
    "n/a"; "nan"; "null" ].

Definition ausente (v : cell) : bool :=
  match v with
  | CNaN => true
  | CStr s => existsb (String.eqb s) na_values
  | _ => false
  end.

Definition digito (c : ascii) : bool :=
  let n := nat_of_ascii c in (48 <=? n) && (n <=? 57).

Fixpoint so_digitos (s : string) : bool :=
  match s with
  | EmptyString => true
  | String c s' => digito c && so_digitos s'
  end.

Fixpoint valor (acc : nat) (s : string) : nat :=
  match s with
  | EmptyString => acc
  | String c s' => valor (10 * acc + (nat_of_ascii c - 48)) s'
  end.

(** The integer a cell spells, if it does. *)
Definition inteiro (v : cell) : option nat :=
  match v with
  | CInt n => Some n
  | CStr s =>
      if negb (String.eqb s "") && so_digitos s && (String.length s <=? 18)
      then Some (valor 0 s)
      else None
  | _ => None
  end.

Definition numero (v : cell) : bool :=
  match v with
  | CFloat _ => true
  | _ => match inteiro v with
         | Some _ => true
         | None => false
         end
  end.

Definition e_float (v : cell) : bool :=
  match v with
  | CFloat _ => true
  | _ => false
  end.

Inductive dtype : Type := int64 | float64 | object.

Definition infere (col : list cell) : dtype :=
  if forallb (fun v => ausente v || numero v) col
  then if existsb ausente col || existsb e_float col then float64 else int64
  else object.

Definition converte (d : dtype) (v : cell) : cell :=
  match d with
  | int64 =>
      match inteiro v with
      | Some n => CInt n
      | None => v
      end
  | float64 =>
      if ausente v then CNaN
      else match inteiro v with
           | Some n => CFloat (inject_Z (Z.of_nat n))
           | None => v
           end
  | object =>
      if ausente v then CNaN
      else match v with
           | CInt n => CStr (str_of_nat n)
           | _ => v
           end
  end.

(** The table read back from the file that holds [df]. *)
Definition reler (df : DataFrame) : DataFrame :=
  {| columns := columns df;
     rows :=
       map (fun row =>
              map (fun c =>
                     converte
                       (infere (map (fun r => cell_at (columns df) r c)
                                    (rows df)))
                       (cell_at (columns df) row c))
                  (columns df))
           (rows df) |}.

(** How a written cell may read back. *)
Definition relido (u v : cell) : Prop := exists d, v = converte d u.

(** The file holds the table as written. *)
Definition to_csv (df : DataFrame) : DataFrame := df.

Definition read_csv (f : DataFrame) : result DataFrame := Ok (reler f).

End Pandas.

(* ================================================================= *)
(** * Report Writer *)

Module Report.
Import Scorer ResultLog.

(** A piece of a formatted string: literal or [str] text, an [int], or a
    [float] under the format [.1f], whose digits are not worked out. *)
Inductive fragmento : Type :=
| Texto (s : string)
| Inteiro (n : nat)
| Decimal1 (q : Q).

(** The calls the function makes on its [FPDF] object. *)
Inductive comando : Type :=
| add_page
| set_font (family style : string) (size : nat)
| pdf_cell (w h : nat) (txt : list fragmento) (ln : bool)
| pdf_ln (h : nat)
| multi_cell (w h : nat) (txt : list fragmento).

(** The line written for one category of the tally. *)
Definition linha_pontuacao (total : nat) (label : string) (p : nat)
  : comando :=
  pdf_cell 0 8
    [ Texto "- "; Texto label; Texto ": "; Inteiro p; Texto " pontos (";
      Decimal1 (percentual p total); Texto "%)" ] true.

(** The PDF library is not part of the program: [pdf] is the state of an
    [FPDF] object, [FPDF] a fresh one, [chama] one call on it (which may
    raise, for instance on text the font cannot encode) and [output] the
    final [pdf.output(dest="S").encode("latin-1")]. *)
Section Writer.

Variable pdf : Type.
Variable bytes : Type.
Variable FPDF : pdf.
Variable chama : pdf -> comando -> result pdf.
Variable output : pdf -> result bytes.

(** [data] is [datetime.now().strftime('%d/%m/%Y %H:%M')]. *)
Definition gerar_pdf_relatorio (data nome : string)
  (resultados : dict string nat) (carreira_final descricao : string)
  : result bytes :=
  p <- chama FPDF add_page ;;
  p <- chama p (set_font "Arial" "B" 16) ;;
  p <- chama p (pdf_cell 0 10
                  [Texto "Relatório - Quiz Vocacional Jurídico"] true) ;;
  p <- chama p (set_font "Arial" "" 12) ;;
  p <- (if truthy nome
        then chama p (pdf_cell 0 8 [Texto "Participante: "; Texto nome] true)
        else Ok p) ;;
  p <- chama p (pdf_cell 0 8 [Texto "Data: "; Texto data] true) ;;
  p <- chama p (pdf_ln 4) ;;
  label <- dict_index CARREIRAS carreira_final ;;
  p <- chama p (multi_cell 0 8
                  [Texto "Carreira mais compatível: "; Texto label]) ;;
  p <- chama p (pdf_ln 4) ;;
  p <- chama p (set_font "Arial" "B" 12) ;;
  p <- chama p (pdf_cell 0 8 [Texto "Pontuações:"] true) ;;
  p <- chama p (set_font "Arial" "" 12) ;;
  let total := or_1 (sum (values resultados)) in
  p <- for_each
         (fun cp p =>
            label <- dict_index CARREIRAS (fst cp) ;;
            chama p (linha_pontuacao total label (snd cp)))
         resultados p ;;
  p <- chama p (pdf_ln 4) ;;
  p <- chama p (set_font "Arial" "B" 12) ;;
  p <- chama p (pdf_cell 0 8 [Texto "Descrição da carreira:"] true) ;;
  p <- chama p (set_font "Arial" "" 12) ;;
  p <- chama p (multi_cell 0 7 [Texto descricao]) ;;
  output p.

End Writer.

End Report.

(* ================================================================= *)
(** * The submission block *)

Module Quiz.
Import Scorer Narrative ResultLog Report.

Section Envio.

Variable arquivo : Type.
Variable to_csv : DataFrame -> arquivo.
Variable read_csv : arquivo -> result DataFrame.
Variable pdf : Type.
Variable bytes : Type.
Variable FPDF : pdf.
Variable chama : pdf -> comando -> result pdf.
Variable output : pdf -> result bytes.

(** What the block sends to the page. *)
Inductive saida : Type :=
| st_success (s : string)
| st_plotly_bar (Carreira : list string) (Pontuacao : list nat)
| st_markdown (s : string)
| st_write (s : string)
| st_download_button (label : string) (data : bytes)
                     (file_name mime : string).

(** [[f(x) for x in l]] *)
Fixpoint comprehension {A B} (f : A -> result B) (l : list A)
  : result (list B) :=
  match l with
  | [] => Ok []
  | x :: l' => y <- f x ;; ys <- comprehension f l' ;; Ok (y :: ys)
  end.

(** The block under [if enviado].  It returns what was shown, the state
    of the log file afterwards, and how the block ended; [agora] and
    [data] are the two readings of the clock. *)
Definition enviar (amb : ambiente) (fs : option arquivo)
  (agora data nome : string) {I} (respostas : dict I string)
  : list saida * option arquivo * result unit :=
  match calcular_resultados respostas with
  | Raise e => ([], fs, Raise e)
  | Ok (resultados, carreira_final) =>
  match dict_index CARREIRAS carreira_final with
  | Raise e => ([], fs, Raise e)
  | Ok carreira_nome =>
  let o1 := [st_success ("Carreira mais compatível: **"
                         ++ carreira_nome ++ "**")%string] in
  match comprehension (dict_index CARREIRAS) (keys resultados) with
  | Raise e => (o1, fs, Raise e)
  | Ok nomes =>
  let o2 := o1 ++ [st_plotly_bar nomes (values resultados)] in
  match get_gemini_descricao amb carreira_final with
  | Raise e => (o2, fs, Raise e)
  | Ok texto =>
  let o3 := o2 ++ [st_markdown "### Análise da carreira sugerida";
                   st_write texto] in
  match salvar_resultado_csv arquivo to_csv read_csv fs agora nome
          resultados carreira_final with
  | Raise e => (o3, fs, Raise e)
  | Ok fs' =>
  match gerar_pdf_relatorio pdf bytes FPDF chama output data nome
          resultados carreira_final texto with
  | Raise e => (o3, fs', Raise e)
  | Ok pdf_bytes =>
      (o3 ++ [st_download_button "📄 Baixar PDF" pdf_bytes "relatorio.pdf"
                                 "application/pdf"],
       fs', Ok tt)
  end end end end end end.

End Envio.

End Quiz.

(* ================================================================= *)
(** * Properties of the Python primitives *)

Module PyFacts.

Lemma dict_get_In {V} (k : string) (d : dict string V) :
  In k (keys d) -> exists v, dict_get k d = Some v.
Proof.
  induction d as [|[k' v'] d IH]; simpl; [tauto|].
  intros [->|Hin].
  - rewrite String.eqb_refl. eauto.
  - destruct (String.eqb k k'); eauto.
Qed.

Lemma dict_get_not_In {V} (k : string) (d : dict string V) :
  ~ In k (keys d) -> dict_get k d = None.
Proof.
  induction d as [|[k' v'] d IH]; simpl; [reflexivity|].
  intros Hn. destruct (String.eqb_spec k k') as [->|_].
  - tauto.
  - apply IH. tauto.
Qed.

Lemma dict_get_Some_In {V} (k : string) (v : V) (d : dict string V) :
  dict_get k d = Some v -> In (k, v) d.
Proof.
  induction d as [|[k' v'] d IH]; simpl; [discriminate|].
  destruct (String.eqb_spec k k') as [->|_].
  - intros [= ->]. now left.
  - intros H. right. now apply IH.
Qed.

Lemma In_dict_get {V} (k : string) (v : V) (d : dict string V) :
  NoDup (keys d) -> In (k, v) d -> dict_get k d = Some v.
Proof.
  induction d as [|[k' v'] d IH]; simpl; [tauto|].
  intros Hnd [[= -> ->]|Hin].
  - now rewrite String.eqb_refl.
  - inversion Hnd as [|? ? Hnotin Hnd']; subst.
    destruct (String.eqb_spec k k') as [->|_].
    + exfalso. apply Hnotin. change (In (fst (k', v)) (map fst d)).
      now apply in_map.
    + now apply IH.
Qed.

Lemma keys_dict_set {V} (k : string) (v : V) (d : dict string V) :
  In k (keys d) -> keys (dict_set k v d) = keys d.
Proof.
  induction d as [|[k' v'] d IH]; simpl; [tauto|].
  intros Hin. destruct (String.eqb_spec k k') as [->|Hne]; simpl.
  - reflexivity.
  - f_equal. apply IH. destruct Hin; congruence.
Qed.

(** Overwriting the value of a present key moves the sum by the
    difference of the two values. *)
Lemma sum_dict_set (k : string) (n m : nat) (d : dict string nat) :
  dict_get k d = Some n ->
  sum (values (dict_set k m d)) + n = sum (values d) + m.
Proof.
  unfold sum, values.
  induction d as [|[k' v'] d IH]; simpl; [discriminate|].
  destruct (String.eqb_spec k k') as [->|_]; simpl.
  - intros [= ->]. lia.
  - intros H. specialize (IH H). lia.
Qed.

(** The element kept by the scan splits the scanned list: everything
    before it has a strictly smaller key, nothing after it has a greater
    one. *)
Lemma max_loop_split {A} (key : A -> nat) (l : list A) :
  forall best,
  exists pre post,
    best :: l = pre ++ max_loop key best l :: post /\
    Forall (fun x => key x < key (max_loop key best l)) pre /\
    Forall (fun x => key x <= key (max_loop key best l)) post.
Proof.
  induction l as [|x l IH]; intros best; simpl.
  - exists [], []. repeat split; constructor.
  - destruct (Nat.ltb_spec (key best) (key x)) as [Hlt|Hge].
    + destruct (IH x) as (pre & post & Heq & Hpre & Hpost).
      exists (best :: pre), post. rewrite Heq. repeat split; trivial.
      constructor; trivial.
      assert (Hx : key x <= key (max_loop key x l)).
      { destruct pre as [|y pre]; simpl in Heq.
        - injection Heq as Hm _. now rewrite <- Hm.
        - injection Heq as <- _. inversion Hpre; subst. lia. }
      lia.
    + destruct (IH best) as (pre & post & Heq & Hpre & Hpost).
      destruct pre as [|y pre]; simpl in Heq.
      * injection Heq as Hm Hl.
        exists [], (x :: post). simpl. rewrite <- Hm, Hl.
        repeat split; [constructor|].
        constructor; [lia | now rewrite Hm].
      * injection Heq as <- Hl.
        exists (best :: x :: pre), post. simpl.
        inversion Hpre as [|? ? Hb Hpre']; subst.
        split; [now rewrite <- Hl|].
        split; [|assumption].
        constructor; [assumption|]. constructor; [lia | assumption].
Qed.

End PyFacts.

(* ================================================================= *)
(** * Properties of the Scorer *)

Module ScorerFacts.
Import PyFacts Scorer.

Definition codigos : list string :=
  ["advocacia"; "magistratura"; "ministerio_publico"; "consultoria"].

Lemma keys_CARREIRAS : keys CARREIRAS = codigos.
Proof. reflexivity. Qed.

Lemma NoDup_codigos : NoDup codigos.
Proof.
  unfold codigos.
  repeat constructor; simpl; intuition discriminate.
Qed.

Lemma codigo_truthy (r : string) : In r codigos -> truthy r = true.
Proof.
  unfold codigos; simpl.
  intros [<-|[<-|[<-|[<-|[]]]]]; reflexivity.
Qed.

Lemma incrementa_present (r : string) (d : dict string nat) :
  In r (keys d) ->
  exists n, dict_get r d = Some n /\ incrementa r d = Ok (dict_set r (n + 1) d).
Proof.
  intros Hin. destruct (dict_get_In r d Hin) as [n Hn].
  exists n. split; [assumption|].
  unfold incrementa, dict_index. now rewrite Hn.
Qed.

(** An unknown code makes [resultados[r] += 1] raise [KeyError]. *)
Lemma incrementa_absent (r : string) (d : dict string nat) :
  ~ In r (keys d) -> incrementa r d = Raise KeyError.
Proof.
  intros Hn. unfold incrementa, dict_index.
  now rewrite (dict_get_not_In r d Hn).
Qed.

Lemma incrementa_Ok (r : string) (d d' : dict string nat) :
  incrementa r d = Ok d' ->
  In r (keys d) /\ keys d' = keys d /\ sum (values d') = S (sum (values d)).
Proof.
  unfold incrementa, dict_index.
  destruct (dict_get r d) as [n|] eqn:Hn; simpl; [|discriminate].
  intros [= <-].
  assert (Hin : In r (keys d)).
  { apply dict_get_Some_In in Hn.
    change (In (fst (r, n)) (map fst d)). now apply in_map. }
  split; [assumption|]. split; [now apply keys_dict_set|].
  pose proof (sum_dict_set r n (n + 1) d Hn). lia.
Qed.

(** Loop invariant: the keys never change and the sum grows by the number
    of non-empty selections seen. *)
Lemma for_each_conta_Ok (rs : list string) :
  forall d d',
  for_each conta rs d = Ok d' ->
  keys d' = keys d /\
  sum (values d') = sum (values d) + length (filter truthy rs).
Proof.
  induction rs as [|r rs IH]; simpl; intros d d'.
  - intros [= <-]. split; [reflexivity | lia].
  - unfold conta at 1. destruct (truthy r) eqn:Ht; simpl.
    + destruct (incrementa r d) as [d1|e] eqn:Hi; simpl; [|discriminate].
      intros H. apply IH in H. destruct H as [Hk Hs].
      apply incrementa_Ok in Hi. destruct Hi as (_ & Hk1 & Hs1).
      split; [congruence | lia].
    + intros H. now apply IH in H.
Qed.

(** The loop completes when every non-empty selection is a key. *)
Lemma for_each_conta_total (rs : list string) :
  forall d,
  Forall (fun r => truthy r = false \/ In r (keys d)) rs ->
  exists d', for_each conta rs d = Ok d'.
Proof.
  induction rs as [|r rs IH]; simpl; intros d Hall.
  - eauto.
  - inversion Hall as [|? ? Hr Hrs]; subst.
    unfold conta at 1. destruct (truthy r) eqn:Ht; simpl.
    + destruct Hr as [Hr|Hr]; [discriminate|].
      destruct (incrementa_present r d Hr) as (n & Hn & Hi).
      rewrite Hi. simpl. apply IH.
      rewrite (keys_dict_set r (n + 1) d Hr). assumption.
    + now apply IH.
Qed.

(** The loop stops with [KeyError] at the first non-empty selection that
    is not a key. *)
Lemma for_each_conta_unknown (rs : list string) :
  forall d,
  Exists (fun r => truthy r = true /\ ~ In r (keys d)) rs ->
  for_each conta rs d = Raise KeyError.
Proof.
  induction rs as [|r rs IH]; simpl; intros d Hex.
  - inversion Hex.
  - unfold conta at 1. destruct (truthy r) eqn:Ht; simpl.
    + destruct (in_dec string_dec r (keys d)) as [Hin|Hout].
      * destruct (incrementa_present r d Hin) as (n & Hn & Hi).
        rewrite Hi. simpl. apply IH.
        rewrite (keys_dict_set r (n + 1) d Hin).
        inversion Hex as [? ? [_ Hbad]|]; subst; tauto.
      * now rewrite (incrementa_absent r d Hout).
    + apply IH. inversion Hex as [? ? [Hbad _]|]; subst;
        [congruence | assumption].
Qed.

Definition zeros : dict string nat :=
  map (fun c => (c, 0)) (keys CARREIRAS).

(** What a successful call returns, in terms of the loop and the scan. *)
Lemma calcular_resultados_Ok {I} (R : dict I string) tally w :
  calcular_resultados R = Ok (tally, w) ->
  for_each conta (values R) zeros = Ok tally /\
  max_by_get tally = Ok w.
Proof.
  unfold calcular_resultados. cbv zeta. fold zeros.
  destruct (for_each conta (values R) zeros) as [d|e] eqn:Hd; simpl;
    [|discriminate].
  destruct (max_by_get d) as [c|e] eqn:Hm; simpl; [|discriminate].
  intros [= <- <-]. now split.
Qed.

Lemma calcular_resultados_total {I} (R : dict I string) :
  respostas_aceitas R ->
  exists tally w, calcular_resultados R = Ok (tally, w).
Proof.
  intros Hok.
  destruct (for_each_conta_total (values R) zeros Hok) as [d Hd].
  destruct (for_each_conta_Ok _ _ _ Hd) as [Hk _].
  unfold calcular_resultados. cbv zeta. fold zeros. rewrite Hd. simpl.
  destruct d as [|x l]; [discriminate|]. simpl. eauto.
Qed.

Lemma calcular_resultados_keys {I} (R : dict I string) tally w :
  calcular_resultados R = Ok (tally, w) -> keys tally = codigos.
Proof.
  intros H. apply calcular_resultados_Ok in H. destruct H as [H _].
  apply for_each_conta_Ok in H. destruct H as [Hk _].
  rewrite Hk. reflexivity.
Qed.

(** A selection outside the category set, other than the empty one, is
    rejected with [KeyError]. *)
Lemma calcular_resultados_unknown {I} (R : dict I string) :
  Exists (fun r => truthy r = true /\ ~ In r (keys CARREIRAS)) (values R) ->
  calcular_resultados R = Raise KeyError.
Proof.
  intros Hex. unfold calcular_resultados. cbv zeta. fold zeros.
  now rewrite (for_each_conta_unknown (values R) zeros Hex).
Qed.

(** Empty selections are skipped by the guard [if r], so in general the
    tally adds up to the number of non-empty selections. *)
Lemma tally_sum_nonempty {I} (R : dict I string) tally w :
  calcular_resultados R = Ok (tally, w) ->
  sum (values tally) = length (filter truthy (values R)).
Proof.
  intros H. apply calcular_resultados_Ok in H. destruct H as [H _].
  apply for_each_conta_Ok in H. destruct H as [_ Hs].
  rewrite Hs. reflexivity.
Qed.

Lemma response_set_aceitas {I} (R : dict I string) :
  response_set R -> respostas_aceitas R.
Proof.
  unfold response_set, respostas_aceitas.
  apply Forall_impl. intros r Hr. now right.
Qed.

Lemma response_set_all_truthy {I} (R : dict I string) :
  response_set R -> filter truthy (values R) = values R.
Proof.
  unfold response_set. induction 1 as [|r rs Hr _ IH]; simpl.
  - reflexivity.
  - rewrite (codigo_truthy r Hr). now f_equal.
Qed.

(** The winner splits the tally: strictly smaller counts before it, no
    greater count after it. *)
Lemma winner_split {I} (R : dict I string) tally w :
  calcular_resultados R = Ok (tally, w) ->
  exists pre nw post,
    tally = pre ++ (w, nw) :: post /\
    Forall (fun kv => snd kv < nw) pre /\
    Forall (fun kv => snd kv <= nw) post.
Proof.
  intros H. apply calcular_resultados_Ok in H. destruct H as [_ Hmax].
  destruct tally as [|x l]; simpl in Hmax; [discriminate|].
  injection Hmax as <-.
  destruct (max_loop_split snd l x) as (pre & post & Heq & Hpre & Hpost).
  exists pre, (snd (max_loop snd x l)), post.
  rewrite <- surjective_pairing. now repeat split.
Qed.

(** C1. For every ResponseSet (a mapping from question identifiers to
    codes of the fixed category set), [calcular_resultados] returns a
    tally whose counts add up to the number of responses. *)
Theorem tally_sum_equals_responses {I} (R : dict I string) :
  response_set R ->
  exists tally w,
    calcular_resultados R = Ok (tally, w) /\
    sum (values tally) = length R.
Proof.
  intros HR.
  destruct (calcular_resultados_total R (response_set_aceitas R HR))
    as (tally & w & Hc).
  exists tally, w. split; [assumption|].
  rewrite (tally_sum_nonempty R tally w Hc).
  rewrite (response_set_all_truthy R HR).
  unfold values. apply length_map.
Qed.

Definition respostas_exemplo : dict string string :=
  [ ("q1", "magistratura"); ("q2", "advocacia"); ("q3", "magistratura");
    ("q4", "consultoria") ].

Lemma tally_sum_equals_responses_witness :
  exists tally w,
    calcular_resultados respostas_exemplo = Ok (tally, w) /\
    sum (values tally) = length respostas_exemplo.
Proof.
  apply (tally_sum_equals_responses respostas_exemplo).
  unfold response_set. simpl. repeat constructor; simpl; tauto.
Defined.

(** C2. On the empty ResponseSet [calcular_resultados] does not raise: it
    returns the tally with count 0 for each of the four categories and the
    winner [advocacia], the first key of [CARREIRAS]. *)
Theorem empty_response_set (I : Type) :
  calcular_resultados (@nil (I * string)) =
    Ok ([ ("advocacia", 0); ("magistratura", 0); ("ministerio_publico", 0);
          ("consultoria", 0) ], "advocacia")
  /\ hd_error (keys CARREIRAS) = Some "advocacia".
Proof. split; reflexivity. Qed.

(** C3. Whenever [calcular_resultados] accepts its input, the winner has
    a count in the tally and no category of the tally has a greater one. *)
Theorem winner_count_is_maximal {I} (R : dict I string) :
  respostas_aceitas R ->
  exists tally w nw,
    calcular_resultados R = Ok (tally, w) /\
    keys tally = keys CARREIRAS /\
    dict_get w tally = Some nw /\
    forall c n, dict_get c tally = Some n -> n <= nw.
Proof.
  intros HR.
  destruct (calcular_resultados_total R HR) as (tally & w & Hc).
  pose proof (calcular_resultados_keys R tally w Hc) as Hk.
  destruct (winner_split R tally w Hc) as (pre & nw & post & Heq & Hpre & Hpost).
  exists tally, w, nw. repeat split; trivial.
  - apply In_dict_get.
    + rewrite Hk. apply NoDup_codigos.
    + rewrite Heq. apply in_or_app. right. now left.
  - intros c n Hget. apply dict_get_Some_In in Hget.
    rewrite Heq in Hget. apply in_app_or in Hget.
    rewrite Forall_forall in Hpre, Hpost.
    destruct Hget as [Hin|[[= _ <-]|Hin]].
    + apply Hpre in Hin. simpl in Hin. lia.
    + lia.
    + apply Hpost in Hin. simpl in Hin. lia.
Qed.

Lemma winner_count_is_maximal_witness :
  exists tally w nw,
    calcular_resultados respostas_exemplo = Ok (tally, w) /\
    keys tally = keys CARREIRAS /\
    dict_get w tally = Some nw /\
    forall c n, dict_get c tally = Some n -> n <= nw.
Proof.
  apply (winner_count_is_maximal respostas_exemplo).
  unfold respostas_aceitas. simpl. repeat constructor; simpl; tauto.
Defined.

(** C9. The winner is the first category, in the order in which
    [CARREIRAS] defines them, whose count is the maximum of the tally:
    the tally lists the four categories in that order, every category
    before the winner has a strictly smaller count and none after it has
    a greater one. *)
Theorem winner_is_first_maximal {I} (R : dict I string) :
  respostas_aceitas R ->
  exists tally w,
    calcular_resultados R = Ok (tally, w) /\
    keys tally =
      ["advocacia"; "magistratura"; "ministerio_publico"; "consultoria"] /\
    exists pre nw post,
      tally = pre ++ (w, nw) :: post /\
      Forall (fun kv => snd kv < nw) pre /\
      Forall (fun kv => snd kv <= nw) post.
Proof.
  intros HR.
  destruct (calcular_resultados_total R HR) as (tally & w & Hc).
  exists tally, w. split; [assumption|]. split.
  - exact (calcular_resultados_keys R tally w Hc).
  - exact (winner_split R tally w Hc).
Qed.

Definition respostas_empate : dict string string :=
  [ ("q1", "consultoria"); ("q2", "magistratura"); ("q3", "");
    ("q4", "magistratura"); ("q5", "consultoria") ].

Lemma winner_is_first_maximal_witness :
  exists tally w,
    calcular_resultados respostas_empate = Ok (tally, w) /\
    keys tally =
      ["advocacia"; "magistratura"; "ministerio_publico"; "consultoria"] /\
    exists pre nw post,
      tally = pre ++ (w, nw) :: post /\
      Forall (fun kv => snd kv < nw) pre /\
      Forall (fun kv => snd kv <= nw) post.
Proof.
  apply (winner_is_first_maximal respostas_empate).
  unfold respostas_aceitas. simpl. repeat constructor; simpl; tauto.
Defined.

(** A tie at the top goes to the category defined first. *)
Example empate_resolvido :
  calcular_resultados respostas_empate =
    Ok ([ ("advocacia", 0); ("magistratura", 2); ("ministerio_publico", 0);
          ("consultoria", 2) ], "magistratura").
Proof. reflexivity. Qed.

End ScorerFacts.

(* ================================================================= *)
(** * Properties of the Narrative Provider *)

Module NarrativeFacts.
Import Scorer Narrative.

(** Every category has a static description, and none is empty. *)
Lemma descricao_base_present (c : string) :
  In c (keys CARREIRAS) ->
  exists base, dict_get c DESCRICOES_BASE = Some base /\ truthy base = true.
Proof.
  simpl. intros [<-|[<-|[<-|[<-|[]]]]]; eexists; split; reflexivity.
Qed.

(** The function returns on every environment and every code: each
    exception of the external calls is handled. *)
Lemma get_gemini_descricao_total (amb : ambiente) (c : string) :
  exists t, get_gemini_descricao amb c = Ok t.
Proof.
  unfold get_gemini_descricao.
  destruct (negb (GEMINI_OK amb)); [eauto|].
  destruct (obter_api_key amb) as [k|]; [|eauto].
  destruct (negb (truthy k)); [eauto|].
  destruct (pedido amb k c _); simpl; eauto.
Qed.

(** The [try] block succeeds exactly when its four steps do, and then
    yields the reply's text stripped. *)
Lemma pedido_Ok (amb : ambiente) (k c base s : string) :
  pedido amb k c base = Ok s <->
  genai_configure amb k = Ok tt /\
  genai_GenerativeModel amb "gemini-1.5-flash" = Ok tt /\
  exists r t,
    generate_content amb (monta_prompt c base) = Ok r /\
    text r = Ok t /\ s = strip t.
Proof.
  unfold pedido. split.
  - destruct (genai_configure amb k) as [[]|]; simpl; [|discriminate].
    destruct (genai_GenerativeModel amb _) as [[]|]; simpl; [|discriminate].
    destruct (generate_content amb _) as [r|]; simpl; [|discriminate].
    destruct (text r) as [t|] eqn:Ht; simpl; [|discriminate].
    intros [= <-]. repeat split. exists r, t. auto.
  - intros (-> & -> & r & t & -> & Ht & ->). simpl. now rewrite Ht.
Qed.

(** A reply made of white space only: the library is present, a key is
    configured, every call succeeds. *)
Definition ambiente_resposta_em_branco : ambiente :=
  {| GEMINI_OK := true;
     secrets_get := fun _ => Ok (Some "chave");
     environ_get := fun _ => None;
     genai_configure := fun _ => Ok tt;
     genai_GenerativeModel := fun _ => Ok tt;
     generate_content := fun _ => Ok {| text := Ok "  " |} |}.

(** C4, as stated, fails: with a key configured and a reply whose text is
    blank, the function returns the empty string for a category of the
    fixed set. *)
Lemma blank_reply_gives_empty_text :
  In "advocacia" (keys CARREIRAS) /\
  get_gemini_descricao ambiente_resposta_em_branco "advocacia" = Ok "".
Proof. split; [simpl; tauto | reflexivity]. Qed.

(** C4, amended.  For every category of the fixed set the function
    returns a text and never raises.  The text is the category's static
    description (which is not empty) when the client library is missing,
    when no credential is configured, or when any step of the external
    call raises; when the call succeeds, it is the text of the [try]
    block, that is the reply stripped of surrounding white space. *)
Theorem get_gemini_descricao_fallback (amb : ambiente) (c : string) :
  In c (keys CARREIRAS) ->
  exists base t,
    dict_get c DESCRICOES_BASE = Some base /\ truthy base = true /\
    get_gemini_descricao amb c = Ok t /\
    (GEMINI_OK amb = false -> t = base) /\
    (truthy_opt (obter_api_key amb) = false -> t = base) /\
    (forall k e, obter_api_key amb = Some k ->
                 pedido amb k c base = Raise e -> t = base) /\
    (forall k s, GEMINI_OK amb = true -> obter_api_key amb = Some k ->
                 truthy k = true -> pedido amb k c base = Ok s -> t = s).
Proof.
  intros Hc. destruct (descricao_base_present c Hc) as (base & Hb & Hne).
  destruct (get_gemini_descricao_total amb c) as [t Ht].
  exists base, t. repeat (split; [assumption|]).
  revert Ht. unfold get_gemini_descricao. rewrite Hb.
  destruct (GEMINI_OK amb); simpl.
  - destruct (obter_api_key amb) as [k|]; simpl.
    + destruct (truthy k) eqn:Hk; simpl.
      * destruct (pedido amb k c base) as [s|e] eqn:Hp; simpl;
          intros [= <-]; repeat split; try congruence.
      * intros [= <-]. repeat split; congruence.
    + intros [= <-]. repeat split; congruence.
  - intros [= <-]. repeat split; congruence.
Qed.

(** The service cannot be reached: [generate_content] raises. *)
Definition ambiente_sem_rede : ambiente :=
  {| GEMINI_OK := true;
     secrets_get := fun _ => Raise (OtherException "no secrets file");
     environ_get := fun _ => Some "chave";
     genai_configure := fun _ => Ok tt;
     genai_GenerativeModel := fun _ => Ok tt;
     generate_content := fun _ => Raise (OtherException "connection refused") |}.

Lemma get_gemini_descricao_fallback_witness :
  exists base t,
    dict_get "magistratura" DESCRICOES_BASE = Some base /\
    truthy base = true /\
    get_gemini_descricao ambiente_sem_rede "magistratura" = Ok t /\
    (GEMINI_OK ambiente_sem_rede = false -> t = base) /\
    (truthy_opt (obter_api_key ambiente_sem_rede) = false -> t = base) /\
    (forall k e, obter_api_key ambiente_sem_rede = Some k ->
                 pedido ambiente_sem_rede k "magistratura" base = Raise e ->
                 t = base) /\
    (forall k s, GEMINI_OK ambiente_sem_rede = true ->
                 obter_api_key ambiente_sem_rede = Some k ->
                 truthy k = true ->
                 pedido ambiente_sem_rede k "magistratura" base = Ok s ->
                 t = s).
Proof.
  apply (get_gemini_descricao_fallback ambiente_sem_rede "magistratura").
  simpl. tauto.
Defined.

(** With the service unreachable the static text comes back verbatim. *)
Example sem_rede_magistratura :
  get_gemini_descricao ambiente_sem_rede "magistratura" =
    Ok "A Magistratura é marcada pela imparcialidade e responsabilidade de decidir casos que impactam diretamente a vida das pessoas.".
Proof. reflexivity. Qed.

End NarrativeFacts.

(* ================================================================= *)
(** * Properties of the Question Store *)

Module QuestionStoreFacts.
Import QuestionStore.

(** Two questions with the same identifier; the first has no options,
    the second lacks its prompt. *)
Definition perguntas_defeituosas : list json :=
  [ JObj [ ("id", JInt 1); ("texto", JStr "Pergunta"); ("opcoes", JObj []) ];
    JObj [ ("id", JInt 1);
           ("opcoes",
            JObj [ ("A", JObj [ ("texto", JStr "Sim");
                                ("carreira", JStr "advocacia") ]) ]) ] ].

Definition documento_defeituoso : json :=
  JObj [ ("perguntas", JArr perguntas_defeituosas) ].

(** C7, as stated, fails: a resource whose questions repeat an
    identifier, have an empty option set and miss a required field is
    loaded and returned as it is. *)
Lemma malformed_questions_are_returned :
  ids_repetidos perguntas_defeituosas = true /\
  existsb opcoes_vazias perguntas_defeituosas = true /\
  existsb faltam_campos perguntas_defeituosas = true /\
  carregar_perguntas (Documento documento_defeituoso)
    = Ok (JArr perguntas_defeituosas).
Proof. repeat split. Qed.

(** A missing resource raises the error of [open], not a configuration
    error of the program's own. *)
Lemma missing_resource_error :
  carregar_perguntas Ausente = Raise FileNotFoundError.
Proof. reflexivity. Qed.

(** C7, amended.  [carregar_perguntas] raises [FileNotFoundError] when
    the resource is missing, the decoder's error when it is not JSON,
    [TypeError] when the document is not an object and [KeyError] when
    the object has no key [perguntas]; in every other case it returns the
    value stored under [perguntas] without inspecting it. *)
Theorem carregar_perguntas_outcomes (r : recurso) :
  carregar_perguntas r =
    match r with
    | Ausente => Raise FileNotFoundError
    | Ilegivel => Raise JSONDecodeError
    | Documento (JObj o) =>
        match dict_get "perguntas" o with
        | Some perguntas => Ok perguntas
        | None => Raise KeyError
        end
    | Documento _ => Raise TypeError
    end.
Proof.
  destruct r as [| |j]; [reflexivity | reflexivity |].
  destruct j; reflexivity.
Qed.

End QuestionStoreFacts.

(* ================================================================= *)
(** * Properties of the Result Log *)

Module ResultLogFacts.
Import PyFacts Scorer ResultLog.

Definition pontos (c : string) : string := ("pontos_" ++ c)%string.
Definition perc (c : string) : string := ("perc_" ++ c)%string.

(** The three leading entries of a record and the two entries a
    category contributes. *)
Definition cabeca (agora nome w : string) : dict string cell :=
  [ ("timestamp", CStr agora); ("nome", CStr nome);
    ("carreira_final", CStr w) ].

Definition entradas_de (total : nat) (cp : string * nat) : dict string cell :=
  [ (pontos (fst cp), CInt (snd cp));
    (perc (fst cp), CFloat (percentual (snd cp) total)) ].

Definition colunas_de (c : string) : list string := [pontos c; perc c].

Lemma pontos_inj c c' : pontos c = pontos c' -> c = c'.
Proof. unfold pontos; simpl. now intros [= H]. Qed.

Lemma perc_inj c c' : perc c = perc c' -> c = c'.
Proof. unfold perc; simpl. now intros [= H]. Qed.

Lemma pontos_perc c c' : pontos c <> perc c'.
Proof. unfold pontos, perc; simpl. discriminate. Qed.

Lemma eqb_perc_pontos c c' : String.eqb (perc c) (pontos c') = false.
Proof. reflexivity. Qed.

Lemma eqb_pontos_perc c c' : String.eqb (pontos c) (perc c') = false.
Proof. reflexivity. Qed.

Lemma eqb_perc_perc c c' : String.eqb (perc c) (perc c') = String.eqb c c'.
Proof. reflexivity. Qed.

Lemma eqb_pontos_pontos c c' :
  String.eqb (pontos c) (pontos c') = String.eqb c c'.
Proof. reflexivity. Qed.

Lemma or_1_max (x : nat) : or_1 x = Nat.max x 1.
Proof. destruct x as [|[|x]]; simpl; reflexivity. Qed.

Lemma dict_set_fresh {V} (k : string) (v : V) (d : dict string V) :
  ~ In k (keys d) -> dict_set k v d = d ++ [(k, v)].
Proof.
  induction d as [|[k' v'] d IH]; simpl; [reflexivity|].
  intros Hn. destruct (String.eqb_spec k k') as [->|_]; [tauto|].
  f_equal. apply IH. tauto.
Qed.

Lemma keys_app {K V} (d1 d2 : dict K V) : keys (d1 ++ d2) = keys d1 ++ keys d2.
Proof. apply map_app. Qed.

Lemma keys_entradas (total : nat) (d : dict string nat) :
  keys (flat_map (entradas_de total) d) = flat_map colunas_de (keys d).
Proof.
  induction d as [|[c p] d IH]; simpl; [reflexivity|]. now rewrite IH.
Qed.

Lemma keys_prefixo agora nome w total (feitos : dict string nat) :
  keys (cabeca agora nome w ++ flat_map (entradas_de total) feitos) =
  ["timestamp"; "nome"; "carreira_final"] ++ flat_map colunas_de (keys feitos).
Proof. rewrite keys_app, keys_entradas. reflexivity. Qed.

Lemma pontos_fresh agora nome w total (feitos : dict string nat) c :
  ~ In c (keys feitos) ->
  ~ In (pontos c)
       (keys (cabeca agora nome w ++ flat_map (entradas_de total) feitos)).
Proof.
  intros Hc. rewrite keys_prefixo. intros Hin.
  apply in_app_or in Hin. destruct Hin as [Hin|Hin].
  - unfold pontos in Hin. simpl in Hin. intuition discriminate.
  - apply in_flat_map in Hin. destruct Hin as (c' & Hc' & [H|[H|[]]]).
    + apply pontos_inj in H. congruence.
    + symmetry in H. now apply pontos_perc in H.
Qed.

Lemma perc_fresh agora nome w total (feitos : dict string nat) c v :
  ~ In c (keys feitos) ->
  ~ In (perc c)
       (keys ((cabeca agora nome w ++ flat_map (entradas_de total) feitos)
              ++ [(pontos c, v)])).
Proof.
  intros Hc. rewrite keys_app, keys_prefixo. intros Hin.
  apply in_app_or in Hin. destruct Hin as [Hin|[H|[]]].
  - apply in_app_or in Hin. destruct Hin as [Hin|Hin].
    + unfold perc in Hin. simpl in Hin. intuition discriminate.
    + apply in_flat_map in Hin. destruct Hin as (c' & Hc' & [H|[H|[]]]).
      * now apply pontos_perc in H.
      * apply perc_inj in H. congruence.
  - now apply pontos_perc in H.
Qed.

(** The loop over [resultados.items()] appends two entries per category
    when no category occurs twice. *)
Lemma monta_linha_loop agora nome w total (resto : dict string nat) :
  forall feitos,
  NoDup (keys feitos ++ keys resto) ->
  fold_left
    (fun linha cp =>
       let '(c, p) := cp in
       let linha := dict_set ("pontos_" ++ c)%string (CInt p) linha in
       dict_set ("perc_" ++ c)%string (CFloat (percentual p total)) linha)
    resto (cabeca agora nome w ++ flat_map (entradas_de total) feitos)
  = cabeca agora nome w ++ flat_map (entradas_de total) (feitos ++ resto).
Proof.
  induction resto as [|[c p] resto IH]; intros feitos Hnd; cbn [fold_left].
  - now rewrite app_nil_r.
  - assert (Hc : ~ In c (keys feitos)).
    { apply NoDup_remove_2 in Hnd. intros Hin. apply Hnd.
      apply in_or_app. now left. }
    fold (pontos c). fold (perc c).
    rewrite (dict_set_fresh (pontos c)) by now apply pontos_fresh.
    rewrite (dict_set_fresh (perc c)) by now apply perc_fresh.
    replace (((cabeca agora nome w ++ flat_map (entradas_de total) feitos)
              ++ [(pontos c, CInt p)])
             ++ [(perc c, CFloat (percentual p total))])
      with (cabeca agora nome w
            ++ flat_map (entradas_de total) (feitos ++ [(c, p)])).
    + rewrite IH.
      * now rewrite <- app_assoc.
      * rewrite keys_app. simpl. now rewrite <- app_assoc.
    + rewrite flat_map_app. simpl. rewrite <- !app_assoc. reflexivity.
Qed.

(** The record in closed form. *)
Lemma monta_linha_eq agora nome w (tally : dict string nat) :
  NoDup (keys tally) ->
  monta_linha agora nome tally w =
    cabeca agora nome w
    ++ flat_map (entradas_de (or_1 (sum (values tally)))) tally.
Proof.
  intros Hnd. unfold monta_linha. cbv zeta.
  exact (monta_linha_loop agora nome w _ tally [] Hnd).
Qed.

Lemma dict_get_entradas_cons total k c p (tally : dict string nat) :
  dict_get k (flat_map (entradas_de total) ((c, p) :: tally)) =
    if String.eqb k (pontos c) then Some (CInt p)
    else if String.eqb k (perc c) then Some (CFloat (percentual p total))
    else dict_get k (flat_map (entradas_de total) tally).
Proof. reflexivity. Qed.

Lemma dict_get_entradas total (tally : dict string nat) c p :
  NoDup (keys tally) -> In (c, p) tally ->
  dict_get (pontos c) (flat_map (entradas_de total) tally) = Some (CInt p) /\
  dict_get (perc c) (flat_map (entradas_de total) tally)
    = Some (CFloat (percentual p total)).
Proof.
  induction tally as [|[c' p'] tally IH]; [simpl; tauto|].
  intros Hnd Hin. inversion Hnd as [|? ? Hnotin Hnd']; subst.
  rewrite !dict_get_entradas_cons.
  rewrite eqb_pontos_pontos, eqb_pontos_perc, eqb_perc_pontos, eqb_perc_perc.
  destruct (String.eqb_spec c c') as [->|Hne].
  - destruct Hin as [[= ->]|Hin]; [now split|].
    exfalso. apply Hnotin. change (In (fst (c', p)) (map fst tally)).
    now apply in_map.
  - destruct Hin as [[= -> ->]|Hin]; [congruence|]. now apply IH.
Qed.

Lemma colunas_perc_entradas total (tally : dict string nat) :
  colunas_perc (flat_map (entradas_de total) tally) =
  map (fun cp => percentual (snd cp) total) tally.
Proof.
  unfold colunas_perc.
  induction tally as [|[c p] tally IH]; simpl; [reflexivity|].
  destruct c; simpl; now f_equal.
Qed.

Lemma colunas_perc_monta agora nome w (tally : dict string nat) :
  NoDup (keys tally) ->
  colunas_perc (monta_linha agora nome tally w) =
  map (fun cp => percentual (snd cp) (or_1 (sum (values tally)))) tally.
Proof.
  intros Hnd. rewrite (monta_linha_eq _ _ _ _ Hnd).
  unfold colunas_perc at 1. rewrite flat_map_app. simpl.
  apply colunas_perc_entradas.
Qed.

Lemma inject_nat_nonzero (n : nat) :
  0 < n -> ~ (inject_Z (Z.of_nat n) == 0)%Q.
Proof.
  intros Hn H. unfold Qeq in H. simpl in H. lia.
Qed.

(** The shares of a tally add up to [sum / total * 100]. *)
Lemma soma_percentuais (total : nat) (tally : dict string nat) :
  0 < total ->
  (fold_right Qplus 0 (map (fun cp => percentual (snd cp) total) tally)
   == inject_Z (Z.of_nat (sum (values tally)))
      / inject_Z (Z.of_nat total) * 100)%Q.
Proof.
  intros Ht. pose proof (inject_nat_nonzero total Ht) as Hnz.
  induction tally as [|[c p] tally IH]; simpl.
  - field. exact Hnz.
  - rewrite IH. unfold percentual.
    change (sum (p :: values tally)) with (p + sum (values tally)).
    rewrite Nat2Z.inj_add, inject_Z_plus. field. exact Hnz.
Qed.

(** C5. In the record built by [salvar_resultado_csv] from a tally, the
    column [perc_c] of each category holds [count / max(total, 1) * 100],
    where [total] is the sum of the counts; the percentage columns add up
    to 100 when [total > 0] and to 0 when [total = 0].  Floats are exact
    rationals here, so the sums are exact. *)
Theorem record_percentages (agora nome w : string) (tally : dict string nat) :
  NoDup (keys tally) ->
  let total := sum (values tally) in
  let linha := monta_linha agora nome tally w in
  (forall c p, In (c, p) tally ->
     dict_get ("pontos_" ++ c)%string linha = Some (CInt p) /\
     dict_get ("perc_" ++ c)%string linha =
       Some (CFloat (inject_Z (Z.of_nat p)
                     / inject_Z (Z.of_nat (Nat.max total 1)) * 100)%Q)) /\
  (0 < total -> (soma_perc linha == 100)%Q) /\
  (total = 0 -> (soma_perc linha == 0)%Q).
Proof.
  intros Hnd total linha. repeat split.
  - unfold linha. rewrite (monta_linha_eq _ _ _ _ Hnd).
    destruct (dict_get_entradas (or_1 total) tally c p Hnd H) as [Hp _].
    exact Hp.
  - unfold linha. rewrite (monta_linha_eq _ _ _ _ Hnd).
    destruct (dict_get_entradas (or_1 total) tally c p Hnd H) as [_ Hq].
    rewrite <- or_1_max. exact Hq.
  - intros Hpos. unfold soma_perc, linha.
    rewrite (colunas_perc_monta _ _ _ _ Hnd). fold total.
    assert (Hor : or_1 total = total) by (destruct total; [lia | reflexivity]).
    rewrite Hor, (soma_percentuais total tally Hpos). fold total.
    field. now apply inject_nat_nonzero.
  - intros Hzero. unfold soma_perc, linha.
    rewrite (colunas_perc_monta _ _ _ _ Hnd). fold total.
    rewrite Hzero. simpl or_1.
    rewrite (soma_percentuais 1 tally Nat.lt_0_1). fold total.
    rewrite Hzero. reflexivity.
Qed.

Definition tally_exemplo : dict string nat :=
  [ ("advocacia", 3); ("magistratura", 0); ("ministerio_publico", 0);
    ("consultoria", 0) ].

Lemma record_percentages_witness :
  let total := sum (values tally_exemplo) in
  let linha :=
    monta_linha "2025-01-01T10:00:00" "Ana" tally_exemplo "advocacia" in
  (forall c p, In (c, p) tally_exemplo ->
     dict_get ("pontos_" ++ c)%string linha = Some (CInt p) /\
     dict_get ("perc_" ++ c)%string linha =
       Some (CFloat (inject_Z (Z.of_nat p)
                     / inject_Z (Z.of_nat (Nat.max total 1)) * 100)%Q)) /\
  (0 < total -> (soma_perc linha == 100)%Q) /\
  (total = 0 -> (soma_perc linha == 0)%Q).
Proof.
  apply (record_percentages "2025-01-01T10:00:00" "Ana" "advocacia"
                            tally_exemplo).
  unfold tally_exemplo. simpl.
  repeat constructor; simpl; intuition discriminate.
Defined.

(** The scenario of three answers that all select [advocacia]. *)
Example tres_respostas_advocacia :
  calcular_resultados
    [ (1, "advocacia"); (2, "advocacia"); (3, "advocacia") ]
  = Ok (tally_exemplo, "advocacia")
  /\ (percentual 3 (or_1 (sum (values tally_exemplo))) == 100)%Q
  /\ (percentual 0 (or_1 (sum (values tally_exemplo))) == 0)%Q.
Proof. repeat split. Qed.

(** ** The log as a sequence of appends *)

(** The columns of the log: the three leading ones, then a count and a
    percentage column per category. *)
Definition colunas_log : list string :=
  ["timestamp"; "nome"; "carreira_final"]
  ++ flat_map colunas_de (keys CARREIRAS).

(** The row a completed quiz contributes, and the table holding the rows
    of a sequence of them. *)
Definition registo (e : envio) : list cell := values (linha_de e).

Definition tabela (envios : list envio) : DataFrame :=
  {| columns := colunas_log; rows := map registo envios |}.

(** A tally in the sense of the data model: one count per category, in
    the order of [CARREIRAS]; [calcular_resultados] returns no other. *)
Definition tally_completo (e : envio) : Prop :=
  keys (resultados e) = keys CARREIRAS.

Lemma NoDup_colunas_log : NoDup colunas_log.
Proof.
  unfold colunas_log. simpl.
  repeat (constructor; [simpl; intuition discriminate|]). constructor.
Qed.

Lemma colunas_log_completas (c : string) :
  In c (keys CARREIRAS) ->
  In (pontos c) colunas_log /\ In (perc c) colunas_log.
Proof.
  intros Hc. unfold colunas_log.
  split; apply in_or_app; right; apply in_flat_map; exists c;
    (split; [assumption|]); unfold colunas_de.
  - now left.
  - right. now left.
Qed.

Lemma keys_linha_de (e : envio) :
  tally_completo e -> keys (linha_de e) = colunas_log.
Proof.
  unfold tally_completo, linha_de. intros Hk.
  rewrite monta_linha_eq.
  - rewrite keys_prefixo, Hk. reflexivity.
  - rewrite Hk. exact ScorerFacts.NoDup_codigos.
Qed.

Lemma length_keys_values {K V} (d : dict K V) :
  length (values d) = length (keys d).
Proof. unfold values, keys. now rewrite !length_map. Qed.

Lemma length_registo (e : envio) :
  tally_completo e -> length (registo e) = length colunas_log.
Proof.
  intros He. unfold registo.
  now rewrite length_keys_values, (keys_linha_de e He).
Qed.

Lemma DataFrame_of_linha_de (e : envio) :
  tally_completo e -> DataFrame_of (linha_de e) = tabela [e].
Proof.
  intros He. unfold DataFrame_of, tabela. simpl.
  now rewrite (keys_linha_de e He).
Qed.

(** Laying a row out on its own columns changes nothing. *)
Lemma reindex_row_same (cols : list string) :
  NoDup cols ->
  forall row, length row = length cols ->
  map (cell_at cols row) cols = row.
Proof.
  induction 1 as [|c cols Hnotin Hnd IH]; intros [|v row] Hlen;
    simpl in Hlen; try discriminate; [reflexivity|].
  simpl. unfold cell_at at 1. simpl. rewrite String.eqb_refl. f_equal.
  rewrite <- (IH row) at 2 by congruence.
  apply map_ext_in. intros c' Hc'. unfold cell_at. simpl.
  destruct (String.eqb_spec c' c) as [->|_]; [contradiction | reflexivity].
Qed.

Lemma reindex_same (df : DataFrame) :
  NoDup (columns df) ->
  Forall (fun row => length row = length (columns df)) (rows df) ->
  reindex (columns df) df = rows df.
Proof.
  intros Hnd Hrows. unfold reindex.
  induction Hrows as [|row rs Hrow _ IH]; simpl; [reflexivity|].
  now rewrite (reindex_row_same _ Hnd row Hrow), IH.
Qed.

Lemma no_new_columns (cols l : list string) :
  incl l cols ->
  filter (fun c => negb (existsb (String.eqb c) cols)) l = [].
Proof.
  induction l as [|c l IH]; intros Hincl; simpl; [reflexivity|].
  assert (Hex : existsb (String.eqb c) cols = true).
  { apply existsb_exists. exists c. split.
    - apply Hincl. now left.
    - apply String.eqb_refl. }
  rewrite Hex. simpl. apply IH. intros x Hx. apply Hincl. now right.
Qed.

(** What bringing a column to its common type may do to a cell: nothing,
    or turn an integer into the float of the same value. *)
Definition mantido (u v : cell) : Prop :=
  v = u \/ exists n, u = CInt n /\ v = CFloat (inject_Z (Z.of_nat n)).

Lemma para_float_mantido (v : cell) : mantido v (para_float v).
Proof. destruct v; simpl; unfold mantido; eauto. Qed.

Lemma Forall2_map_mesmo {A B C} (R : B -> C -> Prop)
  (f : A -> B) (g : A -> C) (l : list A) :
  (forall x, In x l -> R (f x) (g x)) -> Forall2 R (map f l) (map g l).
Proof.
  induction l as [|x l IH]; simpl; intros H; constructor.
  - apply H. now left.
  - apply IH. intros y Hy. apply H. now right.
Qed.

Lemma ajusta_mantido (cols : list string) (linhas : list (list cell))
  (row : list cell) :
  NoDup cols -> length row = length cols ->
  Forall2 mantido row (ajusta cols linhas row).
Proof.
  intros Hnd Hlen. rewrite <- (reindex_row_same cols Hnd row Hlen) at 1.
  unfold ajusta. apply Forall2_map_mesmo. intros c _. cbv zeta.
  destruct (promove cols linhas c);
    [apply para_float_mantido | now left].
Qed.

Lemma ajusta_igual (cols : list string) (linhas : list (list cell))
  (row : list cell) :
  NoDup cols -> length row = length cols ->
  (forall c n, In c cols -> promove cols linhas c = true ->
               cell_at cols row c <> CInt n) ->
  ajusta cols linhas row = row.
Proof.
  intros Hnd Hlen Hint. rewrite <- (reindex_row_same cols Hnd row Hlen) at 2.
  unfold ajusta. apply map_ext_in. intros c Hc. cbv zeta.
  destruct (promove cols linhas c) eqn:Hp; [|reflexivity].
  specialize (Hint c). destruct (cell_at cols row c); try reflexivity.
  exfalso. now apply (Hint n).
Qed.

(** Two tables over the same columns: the rows of both, each column
    brought to its common type. *)
Lemma concat_mesmas_colunas (a b : DataFrame) :
  NoDup (columns a) -> columns b = columns a ->
  Forall (fun row => length row = length (columns a)) (rows a) ->
  Forall (fun row => length row = length (columns a)) (rows b) ->
  concat a b =
    {| columns := columns a;
       rows := map (ajusta (columns a) (rows a ++ rows b))
                   (rows a ++ rows b) |}.
Proof.
  intros Hnd Hb Ha Hrb. unfold concat. cbv zeta.
  rewrite Hb, (no_new_columns (columns a) (columns a) (incl_refl _)).
  rewrite app_nil_r.
  assert (E1 : reindex (columns a) a = rows a) by now apply reindex_same.
  assert (E2 : reindex (columns a) b = rows b).
  { destruct b as [cb rb]. simpl in *. subst cb.
    exact (reindex_same {| columns := columns a; rows := rb |} Hnd Hrb). }
  now rewrite E1, E2.
Qed.

Lemma concat_mantido (a b : DataFrame) :
  NoDup (columns a) -> columns b = columns a ->
  Forall (fun row => length row = length (columns a)) (rows a) ->
  Forall (fun row => length row = length (columns a)) (rows b) ->
  columns (concat a b) = columns a /\
  Forall2 (Forall2 mantido) (rows a ++ rows b) (rows (concat a b)).
Proof.
  intros Hnd Hb Ha Hrb. rewrite (concat_mesmas_colunas a b Hnd Hb Ha Hrb).
  simpl. split; [reflexivity|].
  rewrite <- (map_id (rows a ++ rows b)) at 1.
  apply Forall2_map_mesmo. intros row Hrow.
  apply ajusta_mantido; [assumption|].
  apply in_app_or in Hrow. rewrite Forall_forall in Ha, Hrb.
  destruct Hrow; auto.
Qed.

(** When no column that becomes [float64] holds an integer, the rows are
    those of the two tables, unchanged. *)
Lemma concat_same_columns (a b : DataFrame) :
  NoDup (columns a) -> columns b = columns a ->
  Forall (fun row => length row = length (columns a)) (rows a) ->
  Forall (fun row => length row = length (columns a)) (rows b) ->
  (forall row c n, In row (rows a ++ rows b) -> In c (columns a) ->
     promove (columns a) (rows a ++ rows b) c = true ->
     cell_at (columns a) row c <> CInt n) ->
  concat a b = {| columns := columns a; rows := rows a ++ rows b |}.
Proof.
  intros Hnd Hb Ha Hrb Hint.
  rewrite (concat_mesmas_colunas a b Hnd Hb Ha Hrb). f_equal.
  rewrite <- (map_id (rows a ++ rows b)) at 3.
  apply map_ext_in. intros row Hrow.
  apply ajusta_igual; [assumption | |].
  - apply in_app_or in Hrow. rewrite Forall_forall in Ha, Hrb.
    destruct Hrow; auto.
  - intros c n Hc Hp. now apply (Hint row c n).
Qed.

(** The shape of a complete tally and of the row it gives. *)
Lemma tally_completo_forma (e : envio) :
  tally_completo e ->
  exists a b c d,
    resultados e = [ ("advocacia", a); ("magistratura", b);
                     ("ministerio_publico", c); ("consultoria", d) ].
Proof.
  unfold tally_completo.
  destruct (resultados e)
    as [|[k1 a] [|[k2 b] [|[k3 c] [|[k4 d] [|x l]]]]]; simpl;
    intros H; try discriminate.
  injection H as -> -> -> ->. now exists a, b, c, d.
Qed.

Lemma registo_forma (e : envio) :
  tally_completo e ->
  exists a qa b qb c qc d qd,
    registo e =
      [ CStr (agora e); CStr (nome e); CStr (carreira_final e);
        CInt a; CFloat qa; CInt b; CFloat qb;
        CInt c; CFloat qc; CInt d; CFloat qd ].
Proof.
  intros He. destruct (tally_completo_forma e He) as (a & b & c & d & Hr).
  unfold registo, linha_de. rewrite Hr.
  now repeat eexists.
Qed.

(** In a row of the log only the count columns hold integers, and they
    hold nothing else. *)
Lemma registo_tipo (e : envio) (c : string) :
  tally_completo e -> In c colunas_log ->
  (String.prefix "pontos_" c = true /\
   flutuante (cell_at colunas_log (registo e) c) = false)
  \/
  (String.prefix "pontos_" c = false /\
   forall n, cell_at colunas_log (registo e) c <> CInt n).
Proof.
  intros He Hc.
  destruct (registo_forma e He)
    as (a & qa & b & qb & c' & qc & d & qd & ->).
  unfold colunas_log in Hc. simpl in Hc.
  repeat (destruct Hc as [<-|Hc];
          [ first [ left; split; reflexivity
                  | right; split; [reflexivity | discriminate] ] |]).
  contradiction.
Qed.

Lemma promove_tabela (envios : list envio) (e : envio) (c : string) (n : nat) :
  Forall tally_completo envios -> In e envios -> In c colunas_log ->
  promove colunas_log (map registo envios) c = true ->
  cell_at colunas_log (registo e) c <> CInt n.
Proof.
  intros Hall He Hc Hp. rewrite Forall_forall in Hall.
  unfold promove in Hp. apply andb_prop in Hp. destruct Hp as [_ Hex].
  apply existsb_exists in Hex. destruct Hex as (row & Hrow & Hfl).
  apply in_map_iff in Hrow. destruct Hrow as (e0 & <- & He0).
  destruct (registo_tipo e0 c (Hall e0 He0) Hc) as [[_ Hno]|[Hpre _]];
    [congruence|].
  destruct (registo_tipo e c (Hall e He) Hc) as [[Hpre' _]|[_ Hne]];
    [congruence | apply Hne].
Qed.

Lemma concat_tabela (antes : list envio) (e : envio) :
  Forall tally_completo antes -> tally_completo e ->
  concat (tabela antes) (DataFrame_of (linha_de e)) = tabela (antes ++ [e]).
Proof.
  intros Hantes He. rewrite (DataFrame_of_linha_de e He).
  assert (Hall : Forall tally_completo (antes ++ [e])).
  { apply Forall_app. split; [assumption | now constructor]. }
  rewrite concat_same_columns.
  - unfold tabela. simpl. now rewrite map_app.
  - exact NoDup_colunas_log.
  - reflexivity.
  - simpl. apply Forall_map. revert Hantes. apply Forall_impl.
    exact length_registo.
  - simpl. constructor; [now apply length_registo | constructor].
  - simpl. intros row c n Hrow Hc Hp.
    change (map registo antes ++ [registo e])
      with (map registo antes ++ map registo [e]) in Hrow, Hp.
    rewrite <- map_app in Hrow, Hp.
    apply in_map_iff in Hrow. destruct Hrow as (e0 & <- & He0).
    now apply (promove_tabela (antes ++ [e]) e0 c n).
Qed.

Section Append.

Variable arquivo : Type.
Variable to_csv : DataFrame -> arquivo.
Variable read_csv : arquivo -> result DataFrame.

Local Abbreviation salvar := (salvar_resultado_csv arquivo to_csv read_csv).
Local Abbreviation todos := (salvar_todos arquivo to_csv read_csv).
Local Abbreviation ler := (pd_read_csv arquivo read_csv).

(** First call: no file yet, the new record becomes the log. *)
Lemma salvar_sem_arquivo agora nome tally w :
  salvar None agora nome tally w =
    Ok (Some (to_csv (DataFrame_of (monta_linha agora nome tally w)))).
Proof. reflexivity. Qed.

(** Later calls: the log is read, extended and written back. *)
Lemma salvar_com_arquivo f df agora nome tally w :
  read_csv f = Ok df ->
  salvar (Some f) agora nome tally w =
    Ok (Some (to_csv (concat df
                        (DataFrame_of (monta_linha agora nome tally w))))).
Proof.
  intros Hf. unfold salvar_resultado_csv. simpl. now rewrite Hf.
Qed.

(** Nothing appended: there is still no file, and reading raises. *)
Lemma nenhum_envio :
  todos [] None = Ok None /\ ler None = Raise FileNotFoundError.
Proof. split; reflexivity. Qed.

End Append.

(** ** The log under the re-typing of pandas *)

(** What may become of a cell between the record that was appended and a
    later reading of the log: any number of read-backs ([relido]) and of
    column promotions ([mantido]). *)
Definition alterado (relido : cell -> cell -> Prop) : cell -> cell -> Prop :=
  clos_refl_trans cell (fun u v => relido u v \/ mantido u v).

Definition linhas_alteradas (relido : cell -> cell -> Prop)
  : list (list cell) -> list (list cell) -> Prop :=
  Forall2 (Forall2 (alterado relido)).

Definition bem_formada (df : DataFrame) : Prop :=
  columns df = colunas_log /\
  Forall (fun row => length row = length colunas_log) (rows df).

Lemma Forall2_mesma {A} (R : A -> A -> Prop) (l : list A) :
  (forall x, R x x) -> Forall2 R l l.
Proof. intros H. induction l; constructor; auto. Qed.

Lemma Forall2_encadeia {A} (R : A -> A -> Prop) (l1 l2 l3 : list A) :
  (forall x y z, R x y -> R y z -> R x z) ->
  Forall2 R l1 l2 -> Forall2 R l2 l3 -> Forall2 R l1 l3.
Proof.
  intros Ht H12. revert l3.
  induction H12 as [|x y l1 l2 Hxy _ IH]; intros l3 H23;
    inversion H23; subst; constructor; eauto.
Qed.

Lemma linhas_alteradas_refl relido (l : list (list cell)) :
  linhas_alteradas relido l l.
Proof.
  apply Forall2_mesma. intros row. apply Forall2_mesma. intros v.
  apply rt_refl.
Qed.

Lemma linhas_alteradas_trans relido (l1 l2 l3 : list (list cell)) :
  linhas_alteradas relido l1 l2 -> linhas_alteradas relido l2 l3 ->
  linhas_alteradas relido l1 l3.
Proof.
  apply Forall2_encadeia. intros r1 r2 r3.
  apply Forall2_encadeia. intros u v w. apply rt_trans.
Qed.

Lemma linhas_relidas relido (l1 l2 : list (list cell)) :
  Forall2 (Forall2 relido) l1 l2 -> linhas_alteradas relido l1 l2.
Proof.
  apply Forall2_impl. intros r1 r2. apply Forall2_impl. intros u v H.
  apply rt_step. now left.
Qed.

Lemma linhas_mantidas relido (l1 l2 : list (list cell)) :
  Forall2 (Forall2 mantido) l1 l2 -> linhas_alteradas relido l1 l2.
Proof.
  apply Forall2_impl. intros r1 r2. apply Forall2_impl. intros u v H.
  apply rt_step. now right.
Qed.

Lemma mesmas_larguras {R : cell -> cell -> Prop} (n : nat)
  (l1 l2 : list (list cell)) :
  Forall2 (Forall2 R) l1 l2 ->
  Forall (fun row => length row = n) l1 ->
  Forall (fun row => length row = n) l2.
Proof.
  induction 1 as [|r1 r2 l1 l2 Hr _ IH]; intros Hl; [constructor|].
  inversion Hl; subst. constructor; [|now apply IH].
  symmetry. now apply (Forall2_length Hr).
Qed.

Lemma bem_formada_registo (e : envio) :
  tally_completo e -> bem_formada (DataFrame_of (linha_de e)).
Proof.
  intros He. rewrite (DataFrame_of_linha_de e He). split; [reflexivity|].
  simpl. constructor; [now apply length_registo | constructor].
Qed.

Section Retyped.

Variable arquivo : Type.
Variable to_csv : DataFrame -> arquivo.
Variable read_csv : arquivo -> result DataFrame.
Variable relido : cell -> cell -> Prop.

(** What is asked of the serialisation: a table over the columns of the
    log reads back over the same columns and with as many rows, cell by
    cell in the relation [relido] to what was written. *)
Hypothesis read_back :
  forall df, bem_formada df ->
  exists df',
    read_csv (to_csv df) = Ok df' /\
    columns df' = colunas_log /\
    Forall2 (Forall2 relido) (rows df) (rows df').

Local Abbreviation salvar := (salvar_resultado_csv arquivo to_csv read_csv).
Local Abbreviation todos := (salvar_todos arquivo to_csv read_csv).
Local Abbreviation ler := (pd_read_csv arquivo read_csv).

Lemma salvar_todos_app (antes depois : list envio) (fs : option arquivo) :
  todos (antes ++ depois) fs = (fs' <- todos antes fs ;; todos depois fs').
Proof.
  unfold salvar_todos. revert fs.
  induction antes as [|e antes IH]; intros fs; simpl; [reflexivity|].
  destruct (salvar_resultado_csv _ _ _ fs _ _ _ _); simpl;
    [apply IH | reflexivity].
Qed.

(** One append onto a log that reads as [df0]. *)
Lemma salvar_alterado f df0 e :
  read_csv f = Ok df0 -> bem_formada df0 -> tally_completo e ->
  exists df1 df2,
    salvar (Some f) (agora e) (nome e) (resultados e) (carreira_final e)
      = Ok (Some (to_csv df1)) /\
    read_csv (to_csv df1) = Ok df2 /\ bem_formada df2 /\
    linhas_alteradas relido (rows df0 ++ [registo e]) (rows df2).
Proof.
  intros Hf [Hc0 Hw0] He.
  destruct (bem_formada_registo e He) as [Hcn Hwn].
  destruct (concat_mantido df0 (DataFrame_of (linha_de e))) as [Hc1 Hm].
  - rewrite Hc0. exact NoDup_colunas_log.
  - now rewrite Hcn, Hc0.
  - now rewrite Hc0.
  - now rewrite Hc0.
  - set (df1 := concat df0 (DataFrame_of (linha_de e))) in *.
    assert (Hb1 : bem_formada df1).
    { split; [now rewrite Hc1|].
      apply (mesmas_larguras _ _ _ Hm). apply Forall_app. now split. }
    destruct (read_back df1 Hb1) as (df2 & Hr & Hc2 & Hrel).
    exists df1, df2. split; [|split; [exact Hr | split]].
    + exact (salvar_com_arquivo arquivo to_csv read_csv f df0 _ _ _ _ Hf).
    + split; [exact Hc2|].
      exact (mesmas_larguras _ _ _ Hrel (proj2 Hb1)).
    + apply (linhas_alteradas_trans relido _ (rows df1)).
      * now apply linhas_mantidas.
      * now apply linhas_relidas.
Qed.

Lemma todos_alterado (depois : list envio) :
  forall f df0,
  read_csv f = Ok df0 -> bem_formada df0 -> Forall tally_completo depois ->
  exists f' df,
    todos depois (Some f) = Ok (Some f') /\
    read_csv f' = Ok df /\ bem_formada df /\
    linhas_alteradas relido (rows df0 ++ map registo depois) (rows df).
Proof.
  induction depois as [|e depois IH]; intros f df0 Hf Hb Hall.
  - exists f, df0. simpl. rewrite app_nil_r.
    repeat split; trivial; try apply Hb. apply linhas_alteradas_refl.
  - inversion Hall as [|? ? He Hresto]; subst.
    destruct (salvar_alterado f df0 e Hf Hb He)
      as (df1 & df2 & Hs & Hr & Hb2 & Hrel).
    destruct (IH (to_csv df1) df2 Hr Hb2 Hresto)
      as (f' & df & Hrun & Hread & Hbf & Hrel').
    exists f', df. split; [|split; [exact Hread | split; [exact Hbf|]]].
    + unfold salvar_todos. cbn [for_each]. rewrite Hs. exact Hrun.
    + apply (linhas_alteradas_trans relido _
               (rows df2 ++ map registo depois)); [|exact Hrel'].
      change (map registo (e :: depois))
        with ([registo e] ++ map registo depois).
      rewrite app_assoc. apply Forall2_app; [exact Hrel|].
      apply linhas_alteradas_refl.
Qed.

Lemma todos_inicio (envios : list envio) :
  envios <> [] -> Forall tally_completo envios ->
  exists f df,
    todos envios None = Ok (Some f) /\
    read_csv f = Ok df /\ bem_formada df /\
    linhas_alteradas relido (map registo envios) (rows df).
Proof.
  destruct envios as [|e envios]; [congruence|]. intros _ Hall.
  inversion Hall as [|? ? He Hresto]; subst.
  destruct (read_back _ (bem_formada_registo e He))
    as (df1 & Hr1 & Hc1 & Hrel1).
  assert (Hb1 : bem_formada df1).
  { split; [exact Hc1|].
    exact (mesmas_larguras _ _ _ Hrel1 (proj2 (bem_formada_registo e He))). }
  destruct (todos_alterado envios _ df1 Hr1 Hb1 Hresto)
    as (f & df & Hrun & Hread & Hb & Hrel).
  exists f, df. split; [|split; [exact Hread | split; [exact Hb|]]].
  - unfold salvar_todos. cbn [for_each].
    rewrite (salvar_sem_arquivo arquivo to_csv read_csv). exact Hrun.
  - apply (linhas_alteradas_trans relido _
             (rows df1 ++ map registo envios)); [|exact Hrel].
    change (map registo (e :: envios))
      with ([registo e] ++ map registo envios).
    apply Forall2_app; [|apply linhas_alteradas_refl].
    apply linhas_relidas. exact Hrel1.
Qed.

(** C6, amended.  Starting without a log file, [N >= 1] appends of records
    whose tallies cover the fixed category set leave a log that reads
    back as exactly [N] rows over one fixed column list, which holds a
    count and a percentage column for every category.  The rows are the
    appended records in append order, and the rows read back after any
    earlier append are still there, in their places; but a cell is kept
    only up to what reading the file back and concatenating do to it
    ([alterado]), not unchanged.  This holds for any serialisation that
    keeps the columns and the number of rows. *)
Theorem log_append_keeps_rows (envios : list envio) :
  envios <> [] -> Forall tally_completo envios ->
  exists f df,
    todos envios None = Ok (Some f) /\
    ler (Some f) = Ok df /\
    len df = length envios /\
    columns df = colunas_log /\
    (forall c, In c (keys CARREIRAS) ->
       In ("pontos_" ++ c)%string (columns df) /\
       In ("perc_" ++ c)%string (columns df)) /\
    linhas_alteradas relido (map registo envios) (rows df) /\
    (forall antes depois, envios = antes ++ depois -> antes <> [] ->
       exists f' df',
         todos antes None = Ok (Some f') /\
         ler (Some f') = Ok df' /\
         columns df' = columns df /\
         len df' = length antes /\
         linhas_alteradas relido (rows df' ++ map registo depois) (rows df)).
Proof.
  intros Hne Hall.
  destruct (todos_inicio envios Hne Hall) as (f & df & Hrun & Hread & Hb & Hrel).
  exists f, df.
  split; [exact Hrun|]. split; [exact Hread|].
  split.
  { unfold len. rewrite <- (Forall2_length Hrel). apply length_map. }
  split; [apply Hb|]. split.
  { intros c Hc. destruct Hb as [-> _]. exact (colunas_log_completas c Hc). }
  split; [exact Hrel|].
  intros antes depois -> Hantes.
  apply Forall_app in Hall. destruct Hall as [Ha Hd].
  destruct (todos_inicio antes Hantes Ha)
    as (f' & df' & Hrun' & Hread' & Hb' & Hrel').
  destruct (todos_alterado depois f' df' Hread' Hb' Hd)
    as (f2 & df2 & Hrun2 & Hread2 & _ & Hrel2).
  rewrite salvar_todos_app, Hrun' in Hrun. simpl in Hrun.
  rewrite Hrun2 in Hrun. injection Hrun as ->.
  simpl in Hread. rewrite Hread2 in Hread. injection Hread as ->.
  exists f', df'.
  split; [exact Hrun'|]. split; [exact Hread'|].
  split; [now rewrite (proj1 Hb'), (proj1 Hb)|].
  split.
  { unfold len. rewrite <- (Forall2_length Hrel'). apply length_map. }
  exact Hrel2.
Qed.

End Retyped.

(** The pandas round trip keeps the columns and the number of rows. *)
Lemma Pandas_read_back (df : DataFrame) :
  bem_formada df ->
  exists df',
    Pandas.read_csv (Pandas.to_csv df) = Ok df' /\
    columns df' = colunas_log /\
    Forall2 (Forall2 Pandas.relido) (rows df) (rows df').
Proof.
  intros [Hc Hw]. exists (Pandas.reler df).
  split; [reflexivity|]. split; [exact Hc|].
  unfold Pandas.reler. simpl.
  rewrite <- (map_id (rows df)) at 1.
  apply Forall2_map_mesmo. intros row Hrow.
  rewrite Forall_forall in Hw. specialize (Hw row Hrow).
  rewrite Hc.
  rewrite <- (reindex_row_same colunas_log NoDup_colunas_log row Hw) at 1.
  apply Forall2_map_mesmo. intros c _. unfold Pandas.relido. eauto.
Qed.

(** Two quizzes; the first participant gave a name made of digits. *)
Definition envios_exemplo : list envio :=
  [ {| agora := "2025-01-01T10:00:00"; nome := "007";
       resultados := tally_exemplo; carreira_final := "advocacia" |};
    {| agora := "2025-01-02T09:30:00"; nome := "Bob";
       resultados := [ ("advocacia", 1); ("magistratura", 2);
                       ("ministerio_publico", 0); ("consultoria", 2) ];
       carreira_final := "magistratura" |} ].

Lemma log_append_keeps_rows_witness :
  exists f df,
    salvar_todos DataFrame Pandas.to_csv Pandas.read_csv envios_exemplo None
      = Ok (Some f) /\
    pd_read_csv DataFrame Pandas.read_csv (Some f) = Ok df /\
    len df = length envios_exemplo /\
    columns df = colunas_log /\
    (forall c, In c (keys CARREIRAS) ->
       In ("pontos_" ++ c)%string (columns df) /\
       In ("perc_" ++ c)%string (columns df)) /\
    linhas_alteradas Pandas.relido (map registo envios_exemplo) (rows df) /\
    (forall antes depois, envios_exemplo = antes ++ depois -> antes <> [] ->
       exists f' df',
         salvar_todos DataFrame Pandas.to_csv Pandas.read_csv antes None
           = Ok (Some f') /\
         pd_read_csv DataFrame Pandas.read_csv (Some f') = Ok df' /\
         columns df' = columns df /\
         len df' = length antes /\
         linhas_alteradas Pandas.relido (rows df' ++ map registo depois)
                          (rows df)).
Proof.
  apply (log_append_keeps_rows DataFrame Pandas.to_csv Pandas.read_csv
           Pandas.relido Pandas_read_back envios_exemplo).
  - discriminate.
  - repeat constructor.
Defined.

(** C6, as stated, fails: an earlier row does not stay as it was
    appended.  The first record is stored with the name [007]; the second
    append reads the file back, where pandas takes the column of names
    for integers, so the row is written again with the name [7], and
    that is what the log holds from then on. *)
Lemma numeric_name_is_rewritten :
  exists f1 f2 df,
    salvar_resultado_csv DataFrame Pandas.to_csv Pandas.read_csv None
      "2025-01-01T10:00:00" "007" tally_exemplo "advocacia" = Ok (Some f1) /\
    salvar_resultado_csv DataFrame Pandas.to_csv Pandas.read_csv (Some f1)
      "2025-01-02T09:30:00" "Bob" tally_exemplo "advocacia" = Ok (Some f2) /\
    Dashboard.coluna f1 "nome" = Ok [CStr "007"] /\
    Dashboard.coluna f2 "nome" = Ok [CInt 7; CStr "Bob"] /\
    pd_read_csv DataFrame Pandas.read_csv (Some f2) = Ok df /\
    Dashboard.coluna df "nome" = Ok [CStr "7"; CStr "Bob"].
Proof.
  do 3 eexists.
  split; [reflexivity|]. split; [reflexivity|].
  split; [reflexivity|]. split; [reflexivity|].
  split; reflexivity.
Qed.

End ResultLogFacts.

(* ================================================================= *)
(** * Properties of the Dashboard Reader *)

Module DashboardFacts.
Import Scorer ResultLog Dashboard.

Lemma cell_eqb_refl (v : cell) : isna v = false -> cell_eqb v v = true.
Proof.
  destruct v as [s|n|q|]; simpl; intros H; try discriminate.
  - apply String.eqb_refl.
  - apply Qeq_bool_refl.
  - apply Qeq_bool_refl.
Qed.

(** The distinct values are values of the column, and none is NaN. *)
Lemma unicos_In (v : cell) (col : list cell) :
  In v (unicos col) -> In v col /\ isna v = false.
Proof.
  induction col as [|x col IH]; simpl; [tauto|].
  destruct (isna x) eqn:Hx.
  - intros H. apply IH in H. tauto.
  - intros [<-|H]; [tauto|].
    apply filter_In in H. destruct H as [H _]. apply IH in H. tauto.
Qed.

Lemma ocorrencias_pos (v : cell) (col : list cell) :
  In v col -> isna v = false -> 1 <= ocorrencias v col.
Proof.
  intros Hin Hv. unfold ocorrencias.
  assert (H : In v (filter (cell_eqb v) col)).
  { apply filter_In. split; [assumption | now apply cell_eqb_refl]. }
  destruct (filter (cell_eqb v) col); [contradiction | simpl; lia].
Qed.

Lemma insere_In (x e : cell * nat) (l : list (cell * nat)) :
  In x (insere e l) <-> x = e \/ In x l.
Proof.
  induction l as [|h t IH]; simpl.
  - intuition.
  - destruct (snd e <? snd h); simpl; rewrite ?IH; intuition.
Qed.

Lemma ordena_In (x : cell * nat) (l : list (cell * nat)) :
  In x (ordena l) <-> In x l.
Proof.
  induction l as [|h t IH]; simpl; [tauto|].
  rewrite insere_In, IH. intuition.
Qed.

Definition decrescente (a b : cell * nat) : Prop := snd b <= snd a.

Lemma insere_sorted (e : cell * nat) (l : list (cell * nat)) :
  StronglySorted decrescente l -> StronglySorted decrescente (insere e l).
Proof.
  induction 1 as [|h t Ht IH Hh]; simpl.
  - repeat constructor.
  - destruct (Nat.ltb_spec (snd e) (snd h)) as [Hlt|Hge].
    + constructor; [exact IH|].
      apply Forall_forall. intros x Hx. apply insere_In in Hx.
      destruct Hx as [->|Hx].
      * unfold decrescente. lia.
      * rewrite Forall_forall in Hh. now apply Hh.
    + constructor; [now constructor|].
      constructor; [exact Hge|].
      revert Hh. apply Forall_impl. unfold decrescente. intros x Hx. lia.
Qed.

Lemma ordena_sorted (l : list (cell * nat)) :
  StronglySorted decrescente (ordena l).
Proof.
  induction l as [|h t IH]; simpl; [constructor | now apply insere_sorted].
Qed.

(** What an entry of [value_counts] is. *)
Lemma value_counts_In (v : cell) (n : nat) (col : list cell) :
  In (v, n) (value_counts col) ->
  In v col /\ isna v = false /\ n = ocorrencias v col.
Proof.
  unfold value_counts. rewrite ordena_In, in_map_iff.
  intros (u & [= <- <-] & Hu). apply unicos_In in Hu. tauto.
Qed.

Lemma StronglySorted_map {A B} (g : A -> B) (R : B -> B -> Prop) l :
  StronglySorted (fun a b => R (g a) (g b)) l -> StronglySorted R (map g l).
Proof.
  induction 1 as [|h t Ht IH Hh]; simpl; constructor; trivial.
  apply Forall_map. exact Hh.
Qed.

Lemma distribuicao_In (e : entrada) (col : list cell) :
  In e (distribuicao col) ->
  In (carreira e) col /\ isna (carreira e) = false /\
  qtd e = ocorrencias (carreira e) col.
Proof.
  unfold distribuicao. rewrite in_map_iff.
  intros ([v n] & <- & Hin). simpl. now apply value_counts_In.
Qed.

Lemma distribuicao_sorted (col : list cell) :
  StronglySorted (fun a b => qtd b <= qtd a) (distribuicao col).
Proof.
  unfold distribuicao. apply StronglySorted_map. simpl.
  exact (ordena_sorted _).
Qed.

Section Painel.

Variable arquivo : Type.
Variable read_csv : arquivo -> result DataFrame.

Local Abbreviation painel := (dashboard arquivo read_csv).

Definition total_de (df : DataFrame) : saida :=
  st_write ("Total de participantes: **"
            ++ str_of_nat (length (rows df)) ++ "**")%string.

(** What the dashboard shows for a log that has the winner column. *)
Lemma dashboard_com_log f df col :
  read_csv f = Ok df -> coluna df "carreira_final" = Ok col ->
  painel (Some f) =
    ([ total_de df; st_plotly_chart (distribuicao col); st_dataframe df ],
     Ok tt).
Proof.
  intros Hf Hc. unfold dashboard. simpl. rewrite Hf. simpl.
  rewrite Hc. reflexivity.
Qed.

(** C8. Without a log file the dashboard ends normally after showing the
    notice that nothing has been recorded yet.  With a log file that
    reads as a table, the first thing shown is the total, and the total
    is the number of rows of that table. *)
Theorem dashboard_no_log_or_total :
  painel None = ([st_info "Nenhum dado registrado ainda."], Ok tt) /\
  forall f df, read_csv f = Ok df ->
    exists resto fim, painel (Some f) = (total_de df :: resto, fim).
Proof.
  split; [reflexivity|].
  intros f df Hf. unfold dashboard. simpl. rewrite Hf. simpl.
  destruct (coluna df "carreira_final") as [col|e]; simpl.
  - eauto.
  - destruct e; simpl; eauto.
Qed.

(** C10. The distribution the dashboard plots has an entry only for
    values found in the winner column of some row, each with the number
    of rows holding it, which is at least 1; a category that won in no
    row has no entry; the entries are in descending order of count. *)
Theorem distribution_only_winners f df col :
  read_csv f = Ok df -> coluna df "carreira_final" = Ok col ->
  exists dist,
    painel (Some f) =
      ([ total_de df; st_plotly_chart dist; st_dataframe df ], Ok tt) /\
    (forall e, In e dist ->
       In (carreira e) col /\
       qtd e = length (filter (cell_eqb (carreira e)) col) /\
       1 <= qtd e) /\
    (forall c, In c (keys CARREIRAS) -> ~ In (CStr c) col ->
       forall e, In e dist -> carreira e <> CStr c) /\
    StronglySorted (fun a b => qtd b <= qtd a) dist.
Proof.
  intros Hf Hc. exists (distribuicao col).
  split; [now apply dashboard_com_log|]. split; [|split].
  - intros e He. apply distribuicao_In in He.
    destruct He as (Hin & Hna & Hq). repeat split; trivial.
    rewrite Hq. now apply ocorrencias_pos.
  - intros c _ Hout e He Heq. apply distribuicao_In in He.
    destruct He as (Hin & _). rewrite Heq in Hin. contradiction.
  - apply distribuicao_sorted.
Qed.

End Painel.

(** A log of five quizzes: [consultoria] won three times, [advocacia]
    twice, the other two categories never. *)
Definition log_exemplo : DataFrame :=
  {| columns := ["nome"; "carreira_final"];
     rows := [ [CStr "Ana"; CStr "advocacia"];
               [CStr "Rui"; CStr "consultoria"];
               [CNaN; CStr "consultoria"];
               [CStr "Eva"; CStr "advocacia"];
               [CStr "Ivo"; CStr "consultoria"] ] |}.

Definition coluna_exemplo : list cell :=
  [ CStr "advocacia"; CStr "consultoria"; CStr "consultoria";
    CStr "advocacia"; CStr "consultoria" ].

Example distribuicao_exemplo :
  distribuicao coluna_exemplo =
    [ {| carreira := CStr "consultoria"; qtd := 3;
         Carreira := CStr "Consultoria Jurídica" |};
      {| carreira := CStr "advocacia"; qtd := 2;
         Carreira := CStr "Advocacia" |} ].
Proof. reflexivity. Qed.

Lemma dashboard_no_log_or_total_witness :
  dashboard DataFrame Ok None
    = ([st_info "Nenhum dado registrado ainda."], Ok tt) /\
  exists resto fim,
    dashboard DataFrame Ok (Some log_exemplo)
      = (st_write "Total de participantes: **5**" :: resto, fim).
Proof.
  destruct (dashboard_no_log_or_total DataFrame Ok) as [Hnone Hsome].
  split; [exact Hnone|].
  apply (Hsome log_exemplo log_exemplo). reflexivity.
Defined.

Lemma distribution_only_winners_witness :
  exists dist,
    dashboard DataFrame Ok (Some log_exemplo) =
      ([ total_de log_exemplo; st_plotly_chart dist;
         st_dataframe log_exemplo ], Ok tt) /\
    (forall e, In e dist ->
       In (carreira e) coluna_exemplo /\
       qtd e = length (filter (cell_eqb (carreira e)) coluna_exemplo) /\
       1 <= qtd e) /\
    (forall c, In c (keys CARREIRAS) -> ~ In (CStr c) coluna_exemplo ->
       forall e, In e dist -> carreira e <> CStr c) /\
    StronglySorted (fun a b => qtd b <= qtd a) dist.
Proof.
  apply (distribution_only_winners DataFrame Ok log_exemplo log_exemplo
                                   coluna_exemplo); reflexivity.
Defined.

End DashboardFacts.

(* ================================================================= *)
(** * The Scorer beyond the tally sum: what each count is, when the call
      raises, and what the caller may rely on *)

Module ScorerExtra.
Import PyFacts Scorer ScorerFacts.

(** Adding [k] to every count whose key is [r]. *)
Definition soma_em (r : string) (k : nat) (kv : string * nat) : string * nat :=
  (fst kv, snd kv + (if String.eqb (fst kv) r then k else 0)).

Lemma soma_em_outro (r : string) (d : dict string nat) :
  ~ In r (keys d) -> map (soma_em r 1) d = d.
Proof.
  induction d as [|[k v] d IH]; simpl; [reflexivity|].
  intros Hn. unfold soma_em at 1. simpl.
  destruct (String.eqb_spec k r) as [->|_]; [tauto|].
  rewrite Nat.add_0_r. f_equal. apply IH. tauto.
Qed.

(** [resultados[r] += 1] touches the count of [r] and no other. *)
Lemma incrementa_soma_em (r : string) (d d' : dict string nat) :
  NoDup (keys d) -> incrementa r d = Ok d' -> d' = map (soma_em r 1) d.
Proof.
  unfold incrementa, dict_index.
  destruct (dict_get r d) as [n|] eqn:Hn; simpl; [|discriminate].
  intros Hnd [= <-]. revert Hnd Hn.
  induction d as [|[k v] d IH]; simpl; [discriminate|].
  intros Hnd. inversion Hnd as [|? ? Hnotin Hnd']; subst.
  unfold soma_em at 1. simpl. rewrite (String.eqb_sym k r).
  destruct (String.eqb_spec r k) as [->|Hne].
  - intros [= ->]. f_equal. symmetry. now apply soma_em_outro.
  - intros Hget. rewrite Nat.add_0_r. f_equal. now apply IH.
Qed.

(** The loop in closed form: each count grows by the number of non-empty
    selections equal to its key. *)
Lemma for_each_conta_votos (rs : list string) :
  forall d d',
  NoDup (keys d) -> for_each conta rs d = Ok d' ->
  d' = map (fun kv => (fst kv,
                       snd kv + count_occ string_dec (filter truthy rs)
                                          (fst kv))) d.
Proof.
  induction rs as [|r rs IH]; simpl; intros d d' Hnd.
  - intros [= <-]. rewrite <- (map_id d) at 1. apply map_ext.
    intros [k v]. simpl. now rewrite Nat.add_0_r.
  - unfold conta at 1. destruct (truthy r) eqn:Ht; simpl.
    + destruct (incrementa r d) as [d1|e] eqn:Hi; simpl; [|discriminate].
      intros Hrun.
      pose proof (incrementa_soma_em r d d1 Hnd Hi) as Hd1.
      apply incrementa_Ok in Hi. destruct Hi as (_ & Hk & _).
      apply IH in Hrun; [|now rewrite Hk].
      rewrite Hrun, Hd1, map_map. apply map_ext. intros [k v].
      unfold soma_em. simpl.
      destruct (string_dec r k) as [->|Hne].
      * rewrite String.eqb_refl. f_equal. lia.
      * destruct (String.eqb_spec k r) as [->|_]; [congruence|].
        f_equal. lia.
    + now apply IH.
Qed.

Lemma count_occ_filter_truthy (rs : list string) (c : string) :
  truthy c = true ->
  count_occ string_dec (filter truthy rs) c = count_occ string_dec rs c.
Proof.
  intros Hc. induction rs as [|r rs IH]; simpl; [reflexivity|].
  destruct (truthy r) eqn:Hr; simpl.
  - now destruct (string_dec r c); rewrite IH.
  - destruct (string_dec r c) as [->|_]; [congruence | exact IH].
Qed.

Definition apuracao (rs : list string) : dict string nat :=
  map (fun c => (c, count_occ string_dec rs c)) (keys CARREIRAS).

Lemma calcular_resultados_apuracao {I} (R : dict I string) tally w :
  calcular_resultados R = Ok (tally, w) -> tally = apuracao (values R).
Proof.
  intros H. apply calcular_resultados_Ok in H. destruct H as [H _].
  apply for_each_conta_votos in H.
  - rewrite H. unfold zeros, apuracao. rewrite map_map. apply map_ext_in.
    intros c Hc. simpl. f_equal.
    apply count_occ_filter_truthy. now apply codigo_truthy.
  - exact NoDup_codigos.
Qed.

(** Whether a selection is one the loop accepts can be decided. *)
Lemma aceita_dec (r : string) :
  {truthy r = false \/ In r (keys CARREIRAS)} +
  {~ (truthy r = false \/ In r (keys CARREIRAS))}.
Proof.
  destruct (truthy r) eqn:Ht.
  - destruct (in_dec string_dec r (keys CARREIRAS)) as [Hin|Hout].
    + left. now right.
    + right. intros [H|H]; [discriminate | contradiction].
  - left. now left.
Qed.

Lemma aceitas_ou_desconhecida {I} (R : dict I string) :
  respostas_aceitas R \/
  Exists (fun r => truthy r = true /\ ~ In r (keys CARREIRAS)) (values R).
Proof.
  unfold respostas_aceitas.
  destruct (Forall_Exists_dec _ aceita_dec (values R)) as [Hall|Hex].
  - now left.
  - right. revert Hex. apply Exists_impl. intros r Hr.
    destruct (truthy r) eqn:Ht.
    + split; [reflexivity|]. intros Hin. apply Hr. now right.
    + exfalso. apply Hr. now left.
Qed.

(** X1. Each count of the returned tally is the number of responses that
    selected that category, and the tally lists the categories in the
    order of [CARREIRAS]. *)
Theorem tally_counts_selections {I} (R : dict I string) :
  respostas_aceitas R ->
  exists w,
    calcular_resultados R =
      Ok (map (fun c => (c, count_occ string_dec (values R) c))
              (keys CARREIRAS), w).
Proof.
  intros HR. destruct (calcular_resultados_total R HR) as (tally & w & Hc).
  exists w. rewrite Hc.
  now rewrite (calcular_resultados_apuracao R tally w Hc).
Qed.

Lemma tally_counts_selections_witness :
  exists w,
    calcular_resultados respostas_empate =
      Ok (map (fun c => (c, count_occ string_dec (values respostas_empate) c))
              (keys CARREIRAS), w).
Proof.
  apply (tally_counts_selections respostas_empate).
  unfold respostas_aceitas. simpl. repeat constructor; simpl; tauto.
Defined.

(** X2. The call either returns or raises [KeyError], nothing else; it
    raises exactly when some non-empty selection is not a key of
    [CARREIRAS]. *)
Theorem calcular_resultados_returns_or_KeyError {I} (R : dict I string) :
  (respostas_aceitas R /\
   exists tally w, calcular_resultados R = Ok (tally, w))
  \/
  (Exists (fun r => truthy r = true /\ ~ In r (keys CARREIRAS)) (values R) /\
   calcular_resultados R = Raise KeyError).
Proof.
  destruct (aceitas_ou_desconhecida R) as [Hok|Hbad].
  - left. split; [assumption | now apply calcular_resultados_total].
  - right. split; [assumption | now apply calcular_resultados_unknown].
Qed.



(** X4. Empty selections are skipped by the guard [if r]: the counts add
    up to the number of non-empty selections. *)
Theorem tally_sum_skips_empty {I} (R : dict I string) :
  respostas_aceitas R ->
  exists tally w,
    calcular_resultados R = Ok (tally, w) /\
    sum (values tally) = length (filter truthy (values R)).
Proof.
  intros HR. destruct (calcular_resultados_total R HR) as (tally & w & Hc).
  exists tally, w. split; [assumption|].
  exact (tally_sum_nonempty R tally w Hc).
Qed.

Lemma tally_sum_skips_empty_witness :
  exists tally w,
    calcular_resultados respostas_empate = Ok (tally, w) /\
    sum (values tally) = length (filter truthy (values respostas_empate)).
Proof.
  apply (tally_sum_skips_empty respostas_empate).
  unfold respostas_aceitas. simpl. repeat constructor; simpl; tauto.
Defined.

(** X5. What the caller does next cannot raise: the winner is a key of
    [CARREIRAS], and so is every key of the tally, so the lookups
    [CARREIRAS[carreira_final]] and [CARREIRAS[c] for c in resultados]
    succeed. *)
Theorem winner_has_label {I} (R : dict I string) tally w :
  calcular_resultados R = Ok (tally, w) ->
  (exists label, dict_index CARREIRAS w = Ok label) /\
  (forall c, In c (keys tally) ->
     exists label, dict_index CARREIRAS c = Ok label).
Proof.
  intros Hc. pose proof (calcular_resultados_keys R tally w Hc) as Hk.
  assert (Hlabel : forall c, In c (keys tally) ->
                   exists label, dict_index CARREIRAS c = Ok label).
  { intros c Hin. rewrite Hk in Hin.
    destruct (dict_get_In c CARREIRAS Hin) as [label Hl].
    exists label. unfold dict_index. now rewrite Hl. }
  split; [|exact Hlabel].
  apply Hlabel.
  destruct (winner_split R tally w Hc) as (pre & nw & post & Heq & _).
  rewrite Heq. unfold keys. rewrite map_app. apply in_or_app.
  right. now left.
Qed.

Lemma winner_has_label_witness :
  (exists label, dict_index CARREIRAS "magistratura" = Ok label) /\
  (forall c,
     In c (keys [ ("advocacia", 0); ("magistratura", 2);
                  ("ministerio_publico", 0); ("consultoria", 2) ]) ->
     exists label, dict_index CARREIRAS c = Ok label).
Proof.
  apply (winner_has_label respostas_empate _ "magistratura").
  reflexivity.
Defined.

(** X6. A category selected strictly more often than every other one is
    the winner. *)
Theorem strict_plurality_wins {I} (R : dict I string) tally w c n :
  calcular_resultados R = Ok (tally, w) ->
  dict_get c tally = Some n ->
  (forall c' n', c' <> c -> dict_get c' tally = Some n' -> n' < n) ->
  w = c.
Proof.
  intros Hc Hget Hstrict.
  pose proof (calcular_resultados_keys R tally w Hc) as Hk.
  assert (Hnd : NoDup (keys tally)) by (rewrite Hk; exact NoDup_codigos).
  destruct (winner_split R tally w Hc)
    as (pre & nw & post & Heq & Hpre & Hpost).
  assert (Hw : dict_get w tally = Some nw).
  { apply In_dict_get; [assumption|].
    rewrite Heq. apply in_or_app. right. now left. }
  destruct (string_dec w c) as [->|Hne]; [reflexivity|].
  pose proof (Hstrict w nw Hne Hw) as Hlt.
  apply dict_get_Some_In in Hget. rewrite Heq in Hget.
  apply in_app_or in Hget. rewrite Forall_forall in Hpre, Hpost.
  destruct Hget as [Hin|[[= E _]|Hin]].
  - apply Hpre in Hin. simpl in Hin. lia.
  - congruence.
  - apply Hpost in Hin. simpl in Hin. lia.
Qed.

Lemma strict_plurality_wins_witness :
  "consultoria" = "consultoria".
Proof.
  apply (strict_plurality_wins
           [ (1, "consultoria"); (2, "advocacia"); (3, "consultoria") ]
           [ ("advocacia", 1); ("magistratura", 0);
             ("ministerio_publico", 0); ("consultoria", 2) ]
           "consultoria" "consultoria" 2).
  - reflexivity.
  - reflexivity.
  - intros c' n' Hne. simpl.
    destruct (String.eqb_spec c' "advocacia");
      [intros [= <-]; lia|].
    destruct (String.eqb_spec c' "magistratura");
      [intros [= <-]; lia|].
    destruct (String.eqb_spec c' "ministerio_publico");
      [intros [= <-]; lia|].
    destruct (String.eqb_spec c' "consultoria");
      [congruence | discriminate].
Defined.

End ScorerExtra.

(* ================================================================= *)
(** * The Narrative Provider on unknown codes and on the success path *)

Module NarrativeExtra.
Import PyFacts Scorer Narrative NarrativeFacts.

(** Whether a text begins, or ends, with a white-space character. *)
Definition comeca_com_espaco (s : string) : bool :=
  match tira_um isspace (list_ascii_of_string s) with
  | Some _ => true
  | None => false
  end.

Definition termina_com_espaco (s : string) : bool :=
  match tira_um (map (@rev ascii) isspace) (rev (list_ascii_of_string s)) with
  | Some _ => true
  | None => false
  end.

(** The static description used as fallback: [DESCRICOES_BASE.get(c, "")]. *)
Definition descricao_de (c : string) : string :=
  match dict_get c DESCRICOES_BASE with
  | Some d => d
  | None => ""
  end.

Lemma sem_prefixo_app (p l r : list ascii) :
  sem_prefixo p l = Some r -> l = p ++ r.
Proof.
  revert l. induction p as [|a p IH]; intros [|b l]; simpl;
    try discriminate; try (now intros [= ->]).
  destruct (Ascii.eqb_spec a b) as [->|_]; [|discriminate].
  intros H. f_equal. now apply IH.
Qed.

Lemma sem_prefixo_mais (p l r suf : list ascii) :
  sem_prefixo p l = Some r -> sem_prefixo p (l ++ suf) = Some (r ++ suf).
Proof.
  revert l. induction p as [|a p IH]; intros [|b l]; simpl;
    try discriminate; try (now intros [= <-]).
  destruct (Ascii.eqb a b); [apply IH | discriminate].
Qed.

(** What [tira_um] removes is one of the characters, in full. *)
Lemma tira_um_Some (chars : list (list ascii)) (l r : list ascii) :
  tira_um chars l = Some r -> exists p, In p chars /\ l = p ++ r.
Proof.
  induction chars as [|p chars IH]; simpl; [discriminate|].
  destruct (sem_prefixo p l) as [r'|] eqn:Hp.
  - intros [= ->]. exists p. split; [now left | now apply sem_prefixo_app].
  - intros H. destruct (IH H) as (q & Hq & Heq). exists q. tauto.
Qed.

(** A text that starts with one of the characters still does when
    something is appended to it. *)
Lemma tira_um_mais (chars : list (list ascii)) (l suf : list ascii) :
  tira_um chars (l ++ suf) = None -> tira_um chars l = None.
Proof.
  induction chars as [|p chars IH]; simpl; [reflexivity|].
  destruct (sem_prefixo p l) as [r|] eqn:Hp.
  - now rewrite (sem_prefixo_mais p l r suf Hp).
  - destruct (sem_prefixo p (l ++ suf)); [discriminate | exact IH].
Qed.

Definition sem_vazio (chars : list (list ascii)) : Prop :=
  Forall (fun p => p <> []) chars.

Lemma tira_um_menor (chars : list (list ascii)) (l r : list ascii) :
  sem_vazio chars -> tira_um chars l = Some r -> length r < length l.
Proof.
  intros Hne H. destruct (tira_um_Some chars l r H) as (p & Hp & ->).
  unfold sem_vazio in Hne. rewrite Forall_forall in Hne.
  specialize (Hne p Hp). rewrite length_app.
  destruct p; [congruence | simpl; lia].
Qed.

(** Given enough steps, [apara] stops at a text that starts with none of
    the characters. *)
Lemma apara_None (chars : list (list ascii)) (n : nat) :
  sem_vazio chars ->
  forall l, length l <= n -> tira_um chars (apara chars n l) = None.
Proof.
  intros Hne. induction n as [|n IH]; intros l Hl; simpl.
  - destruct l; [|simpl in Hl; lia].
    destruct (tira_um chars []) as [r|] eqn:H; [|reflexivity].
    apply (tira_um_menor chars [] r Hne) in H. simpl in H. lia.
  - destruct (tira_um chars l) as [r|] eqn:H; [|exact H].
    apply IH. pose proof (tira_um_menor chars l r Hne H). lia.
Qed.

Lemma apara_fixo (chars : list (list ascii)) (n : nat) (l : list ascii) :
  tira_um chars l = None -> apara chars n l = l.
Proof. intros H. destruct n; simpl; [reflexivity | now rewrite H]. Qed.

(** [apara] only removes from the front. *)
Lemma apara_sufixo (chars : list (list ascii)) (n : nat) :
  forall l, exists pre, l = pre ++ apara chars n l.
Proof.
  induction n as [|n IH]; intros l; simpl.
  - now exists [].
  - destruct (tira_um chars l) as [r|] eqn:H; [|now exists []].
    destruct (tira_um_Some chars l r H) as (p & _ & ->).
    destruct (IH r) as [pre Hpre].
    exists (p ++ pre). rewrite <- app_assoc. now f_equal.
Qed.

Lemma isspace_sem_vazio : sem_vazio isspace.
Proof. unfold sem_vazio, isspace. simpl. repeat constructor; discriminate. Qed.

Lemma isspace_rev_sem_vazio : sem_vazio (map (@rev ascii) isspace).
Proof. unfold sem_vazio, isspace. simpl. repeat constructor; discriminate. Qed.

Lemma lstrip_bytes_None (l : list ascii) :
  tira_um isspace (lstrip_bytes l) = None.
Proof. apply apara_None; [exact isspace_sem_vazio | apply le_n]. Qed.

Lemma rstrip_bytes_None (l : list ascii) :
  tira_um (map (@rev ascii) isspace) (rev (rstrip_bytes l)) = None.
Proof.
  unfold rstrip_bytes. rewrite rev_involutive.
  apply apara_None; [exact isspace_rev_sem_vazio|]. now rewrite length_rev.
Qed.

(** [rstrip] only removes from the end. *)
Lemma rstrip_bytes_prefixo (l : list ascii) :
  exists suf, l = rstrip_bytes l ++ suf.
Proof.
  unfold rstrip_bytes.
  destruct (apara_sufixo (map (@rev ascii) isspace) (length l) (rev l))
    as [pre Hpre].
  exists (rev pre). rewrite <- rev_app_distr, <- Hpre.
  now rewrite rev_involutive.
Qed.

Lemma strip_bytes_bordas (l : list ascii) :
  let y := rstrip_bytes (lstrip_bytes l) in
  tira_um isspace y = None /\
  tira_um (map (@rev ascii) isspace) (rev y) = None /\
  rstrip_bytes (lstrip_bytes y) = y.
Proof.
  intros y.
  assert (H1 : tira_um isspace y = None).
  { destruct (rstrip_bytes_prefixo (lstrip_bytes l)) as [suf Hsuf].
    fold y in Hsuf. apply (tira_um_mais isspace y suf).
    rewrite <- Hsuf. apply lstrip_bytes_None. }
  assert (H2 : tira_um (map (@rev ascii) isspace) (rev y) = None)
    by apply rstrip_bytes_None.
  split; [exact H1|]. split; [exact H2|].
  unfold lstrip_bytes at 1. rewrite (apara_fixo _ _ _ H1).
  unfold rstrip_bytes at 1. rewrite (apara_fixo _ _ _ H2).
  apply rev_involutive.
Qed.

(** A stripped text has no white space at either end, and stripping it
    again changes nothing. *)
Lemma strip_bordas (s : string) :
  comeca_com_espaco (strip s) = false /\
  termina_com_espaco (strip s) = false /\
  strip (strip s) = strip s.
Proof.
  destruct (strip_bytes_bordas (list_ascii_of_string s)) as (H1 & H2 & H3).
  unfold comeca_com_espaco, termina_com_espaco, strip.
  rewrite !list_ascii_of_string_of_list_ascii.
  rewrite H1, H2, H3. auto.
Qed.

Lemma descricao_desconhecida (c : string) :
  ~ In c (keys CARREIRAS) -> descricao_de c = "".
Proof.
  intros Hc. unfold descricao_de.
  now rewrite (dict_get_not_In c DESCRICOES_BASE Hc).
Qed.

(** X7. A code outside the category set is not an error: the function
    still returns, and every fallback path returns the empty string (the
    default of [DESCRICOES_BASE.get]). *)
Theorem unknown_code_falls_back_to_empty (amb : ambiente) (c : string) :
  ~ In c (keys CARREIRAS) ->
  exists t,
    get_gemini_descricao amb c = Ok t /\
    (GEMINI_OK amb = false -> t = "") /\
    (truthy_opt (obter_api_key amb) = false -> t = "") /\
    (forall k e, obter_api_key amb = Some k ->
                 pedido amb k c "" = Raise e -> t = "").
Proof.
  intros Hc. destruct (get_gemini_descricao_total amb c) as [t Ht].
  exists t. split; [assumption|].
  revert Ht. unfold get_gemini_descricao.
  rewrite (dict_get_not_In c DESCRICOES_BASE Hc).
  destruct (GEMINI_OK amb); simpl.
  - destruct (obter_api_key amb) as [k|]; simpl.
    + destruct (truthy k) eqn:Hk; simpl.
      * destruct (pedido amb k c "") as [s|e] eqn:Hp; simpl;
          intros [= <-]; repeat split; congruence.
      * intros [= <-]. repeat split; congruence.
    + intros [= <-]. repeat split; congruence.
  - intros [= <-]. repeat split; congruence.
Qed.

Lemma unknown_code_falls_back_to_empty_witness :
  exists t,
    get_gemini_descricao ambiente_sem_rede "notariado" = Ok t /\
    (GEMINI_OK ambiente_sem_rede = false -> t = "") /\
    (truthy_opt (obter_api_key ambiente_sem_rede) = false -> t = "") /\
    (forall k e, obter_api_key ambiente_sem_rede = Some k ->
                 pedido ambiente_sem_rede k "notariado" "" = Raise e ->
                 t = "").
Proof.
  apply (unknown_code_falls_back_to_empty ambiente_sem_rede "notariado").
  simpl. intuition discriminate.
Defined.

(** X8. When the library is present, a non-empty key is found and the
    four calls succeed, the function returns the reply's text stripped:
    a text with no white space at its start or end, and unchanged by
    another [strip]. *)
Theorem successful_text_is_trimmed (amb : ambiente) (c k : string)
  (r : resposta) (t : string) :
  GEMINI_OK amb = true ->
  obter_api_key amb = Some k -> truthy k = true ->
  genai_configure amb k = Ok tt ->
  genai_GenerativeModel amb "gemini-1.5-flash" = Ok tt ->
  generate_content amb (monta_prompt c (descricao_de c)) = Ok r ->
  text r = Ok t ->
  get_gemini_descricao amb c = Ok (strip t) /\
  comeca_com_espaco (strip t) = false /\
  termina_com_espaco (strip t) = false /\
  strip (strip t) = strip t.
Proof.
  intros Hok Hkey Hk Hconf Hmodel Hgen Htext.
  split; [|apply strip_bordas].
  unfold get_gemini_descricao. fold (descricao_de c).
  rewrite Hok, Hkey, Hk. simpl.
  assert (Hp : pedido amb k c (descricao_de c) = Ok (strip t)).
  { apply pedido_Ok. repeat split; trivial. exists r, t. auto. }
  now rewrite Hp.
Qed.

(** A reply edged with a no-break space (U+00A0), a line feed and an
    ideographic space (U+3000). *)
Definition resposta_com_bordas : string :=
  String (ascii_of_nat 194) (String (ascii_of_nat 160) (String (ascii_of_nat 10)
    ("1. Visão geral" ++
     String (ascii_of_nat 32) (String (ascii_of_nat 227)
       (String (ascii_of_nat 128) (String (ascii_of_nat 128) ""))))%string)).

Definition ambiente_com_resposta : ambiente :=
  {| GEMINI_OK := true;
     secrets_get := fun _ => Ok (Some "chave");
     environ_get := fun _ => None;
     genai_configure := fun _ => Ok tt;
     genai_GenerativeModel := fun _ => Ok tt;
     generate_content := fun _ => Ok {| text := Ok resposta_com_bordas |} |}.

Lemma successful_text_is_trimmed_witness :
  get_gemini_descricao ambiente_com_resposta "consultoria"
    = Ok (strip resposta_com_bordas) /\
  comeca_com_espaco (strip resposta_com_bordas) = false /\
  termina_com_espaco (strip resposta_com_bordas) = false /\
  strip (strip resposta_com_bordas) = strip resposta_com_bordas.
Proof.
  apply (successful_text_is_trimmed ambiente_com_resposta "consultoria"
           "chave" {| text := Ok resposta_com_bordas |});
    reflexivity.
Defined.

Example resposta_aparada :
  get_gemini_descricao ambiente_com_resposta "consultoria"
    = Ok "1. Visão geral".
Proof. reflexivity. Qed.

End NarrativeExtra.

(* ================================================================= *)
(** * The Result Log beyond the fixed schema *)

Module ResultLogExtra.
Import PyFacts Scorer ResultLog ResultLogFacts.

Lemma In_le_sum (c : string) (p : nat) (tally : dict string nat) :
  In (c, p) tally -> p <= sum (values tally).
Proof.
  unfold sum, values.
  induction tally as [|[c' p'] tally IH]; simpl; [tauto|].
  intros [[= -> ->]|Hin]; [lia|]. apply IH in Hin. lia.
Qed.

Lemma le_or_1 (x : nat) : x <= or_1 x /\ 0 < or_1 x.
Proof. destruct x; simpl; lia. Qed.

(** A share of a total is a percentage. *)
Lemma percentual_bounds (p total : nat) :
  0 < total -> p <= total ->
  (0 <= percentual p total /\ percentual p total <= 100)%Q.
Proof.
  intros Ht Hp. unfold percentual.
  assert (Hpos : (0 < inject_Z (Z.of_nat total))%Q).
  { unfold Qlt. simpl. lia. }
  assert (H0 : (0 <= inject_Z (Z.of_nat p) / inject_Z (Z.of_nat total))%Q).
  { apply Qle_shift_div_l; [exact Hpos|].
    rewrite Qmult_0_l. unfold Qle. simpl. lia. }
  assert (H1 : (inject_Z (Z.of_nat p) / inject_Z (Z.of_nat total) <= 1)%Q).
  { apply Qle_shift_div_r; [exact Hpos|].
    rewrite Qmult_1_l. unfold Qle. simpl. lia. }
  split.
  - apply Qmult_le_0_compat; [exact H0 | discriminate].
  - setoid_replace 100%Q with (1 * 100)%Q at 2 by reflexivity.
    apply Qmult_le_compat_r; [exact H1 | discriminate].
Qed.

(** X9. Every percentage written to a record lies between 0 and 100. *)
Theorem record_percentage_bounds (agora nome w : string)
  (tally : dict string nat) (c : string) (p : nat) :
  NoDup (keys tally) -> In (c, p) tally ->
  exists q,
    dict_get ("perc_" ++ c)%string (monta_linha agora nome tally w)
      = Some (CFloat q) /\
    (0 <= q /\ q <= 100)%Q.
Proof.
  intros Hnd Hin.
  exists (percentual p (or_1 (sum (values tally)))). split.
  - rewrite (monta_linha_eq _ _ _ _ Hnd).
    now destruct (dict_get_entradas (or_1 (sum (values tally))) tally c p
                    Hnd Hin).
  - destruct (le_or_1 (sum (values tally))) as [Hle Hpos].
    apply percentual_bounds; [exact Hpos|].
    pose proof (In_le_sum c p tally Hin). lia.
Qed.

Lemma record_percentage_bounds_witness :
  exists q,
    dict_get ("perc_" ++ "advocacia")%string
      (monta_linha "2025-01-01T10:00:00" "Ana" tally_exemplo "advocacia")
      = Some (CFloat q) /\
    (0 <= q /\ q <= 100)%Q.
Proof.
  apply (record_percentage_bounds "2025-01-01T10:00:00" "Ana" "advocacia"
           tally_exemplo "advocacia" 3).
  - unfold tally_exemplo. simpl.
    repeat constructor; simpl; intuition discriminate.
  - simpl. tauto.
Defined.

Lemma length_entradas (total : nat) (tally : dict string nat) :
  length (flat_map (entradas_de total) tally) = 2 * length tally.
Proof.
  induction tally as [|cp tally IH]; simpl; [reflexivity|].
  rewrite IH. lia.
Qed.

(** X10. The record lists the time stamp, the name and the winner, then
    for each category of the tally, in the tally's order, its count
    followed by its percentage; no entry overwrites another. *)
Theorem record_layout (agora nome w : string) (tally : dict string nat) :
  NoDup (keys tally) ->
  monta_linha agora nome tally w =
    [ ("timestamp", CStr agora); ("nome", CStr nome);
      ("carreira_final", CStr w) ]
    ++ flat_map
         (fun cp =>
            [ (("pontos_" ++ fst cp)%string, CInt (snd cp));
              (("perc_" ++ fst cp)%string,
               CFloat (percentual (snd cp) (or_1 (sum (values tally))))) ])
         tally
  /\ length (monta_linha agora nome tally w) = 3 + 2 * length tally.
Proof.
  intros Hnd. rewrite (monta_linha_eq _ _ _ _ Hnd). split; [reflexivity|].
  rewrite length_app, length_entradas. reflexivity.
Qed.

Lemma record_layout_witness :
  monta_linha "2025-01-01T10:00:00" "Ana" tally_exemplo "advocacia" =
    [ ("timestamp", CStr "2025-01-01T10:00:00"); ("nome", CStr "Ana");
      ("carreira_final", CStr "advocacia") ]
    ++ flat_map
         (fun cp =>
            [ (("pontos_" ++ fst cp)%string, CInt (snd cp));
              (("perc_" ++ fst cp)%string,
               CFloat (percentual (snd cp)
                         (or_1 (sum (values tally_exemplo))))) ])
         tally_exemplo
  /\ length (monta_linha "2025-01-01T10:00:00" "Ana" tally_exemplo
               "advocacia") = 3 + 2 * length tally_exemplo.
Proof.
  apply (record_layout "2025-01-01T10:00:00" "Ana" "advocacia" tally_exemplo).
  unfold tally_exemplo. simpl.
  repeat constructor; simpl; intuition discriminate.
Defined.

(** A column the table does not have reads as NaN. *)
Lemma cell_at_missing (cols : list string) (row : list cell) (c : string) :
  ~ In c cols -> cell_at cols row c = CNaN.
Proof.
  intros Hc. unfold cell_at. rewrite dict_get_not_In; [reflexivity|].
  intros Hin. apply Hc. revert row Hin.
  induction cols as [|k cols IH]; intros [|v row]; simpl; try tauto.
  intros [->|Hin]; [now left | right]. apply (IH (fun H => Hc (or_intror H)) row Hin).
Qed.

Lemma filter_novos_fora (cols l : list string) (c : string) :
  In c (filter (fun c => negb (existsb (String.eqb c) cols)) l) ->
  ~ In c cols.
Proof.
  intros Hin Hc. apply filter_In in Hin. destruct Hin as [_ Hneg].
  apply negb_true_iff in Hneg.
  assert (Hex : existsb (String.eqb c) cols = true).
  { apply existsb_exists. exists c. split; [assumption|].
    apply String.eqb_refl. }
  congruence.
Qed.

(** Laid out on its own columns followed by new ones, a row keeps its
    cells and gets NaN in the new columns. *)
Lemma reindex_row_extended (cols novos : list string) (row : list cell) :
  NoDup cols -> length row = length cols ->
  (forall c, In c novos -> ~ In c cols) ->
  map (cell_at cols row) (cols ++ novos) = row ++ map (fun _ => CNaN) novos.
Proof.
  intros Hnd Hlen Hnovos. rewrite map_app.
  rewrite (reindex_row_same cols Hnd row Hlen). f_equal.
  apply map_ext_in. intros c Hc. apply cell_at_missing. now apply Hnovos.
Qed.

(** A cell of a row that was extended to the right is found where it was. *)
Lemma cell_at_app (cols1 cols2 : list string) (row extra : list cell)
  (c : string) :
  length row = length cols1 -> In c cols1 ->
  cell_at (cols1 ++ cols2) (row ++ extra) c = cell_at cols1 row c.
Proof.
  unfold cell_at. revert row.
  induction cols1 as [|k cols1 IH]; intros [|v row] Hlen Hc;
    simpl in *; try discriminate; [contradiction|].
  destruct (String.eqb_spec c k) as [->|Hne]; [reflexivity|].
  apply IH; [congruence|]. destruct Hc; congruence.
Qed.

(** In the columns it had, an extended row comes out of the type
    adjustment with its cells kept. *)
Lemma ajusta_prefixo (cols1 novos : list string) (linhas : list (list cell))
  (row extra : list cell) :
  NoDup cols1 -> length row = length cols1 ->
  Forall2 mantido row
    (firstn (length cols1) (ajusta (cols1 ++ novos) linhas (row ++ extra))).
Proof.
  intros Hnd Hlen. unfold ajusta.
  rewrite map_app, firstn_app, length_map, Nat.sub_diag. simpl.
  rewrite app_nil_r, firstn_all2 by (rewrite length_map; lia).
  rewrite <- (reindex_row_same cols1 Hnd row Hlen) at 1.
  apply Forall2_map_mesmo. intros c Hc. cbv zeta.
  rewrite (cell_at_app _ _ _ _ _ Hlen Hc).
  destruct (promove _ _ _); [apply para_float_mantido | now left].
Qed.

Section Append.

Variable arquivo : Type.
Variable to_csv : DataFrame -> arquivo.
Variable read_csv : arquivo -> result DataFrame.

Local Abbreviation salvar := (salvar_resultado_csv arquivo to_csv read_csv).


(** X12. A log file that exists but cannot be read makes the append
    raise what [read_csv] raised: only a missing file is handled. *)
Theorem append_propagates_read_error f e agora nome tally w :
  read_csv f = Raise e -> e <> FileNotFoundError ->
  salvar_resultado_csv arquivo to_csv read_csv (Some f) agora nome tally w
    = Raise e.
Proof.
  intros Hf He. unfold salvar_resultado_csv. simpl. rewrite Hf. simpl.
  destruct e; try reflexivity. congruence.
Qed.

End Append.

(** An older log with a column of its own and none for the scores. *)
Definition log_antigo : DataFrame :=
  {| columns := ["nome"; "curso"];
     rows := [ [CStr "Rui"; CStr "Direito"] ] |}.


(** The counts of the old row become floats: the new record has no
    column [pontos], so that column has to hold NaN. *)
Example coluna_promovida :
  exists df',
    salvar_resultado_csv DataFrame (fun df => df) Ok
      (Some {| columns := ["nome"; "pontos"];
               rows := [ [CStr "Rui"; CInt 30] ] |})
      "2025-01-01T10:00:00" "Ana" tally_exemplo "advocacia"
      = Ok (Some df') /\
    map (firstn 2) (rows df') =
      [ [CStr "Rui"; CFloat (inject_Z 30)]; [CStr "Ana"; CNaN] ].
Proof. eexists. split; reflexivity. Qed.

Lemma append_propagates_read_error_witness :
  salvar_resultado_csv unit (fun _ => tt) (fun _ => Raise ValueError)
    (Some tt) "2025-01-01T10:00:00" "Ana" tally_exemplo "advocacia"
  = Raise ValueError.
Proof.
  apply (append_propagates_read_error unit (fun _ => tt)
           (fun _ => Raise ValueError) tt ValueError).
  - reflexivity.
  - discriminate.
Defined.

End ResultLogExtra.

(* ================================================================= *)
(** * The Dashboard Reader: what the plotted counts add up to, and what
      is not handled *)

Module DashboardExtra.
Import PyFacts Scorer ResultLog Dashboard DashboardFacts.

Lemma cell_eqb_sym (a b : cell) : cell_eqb a b = cell_eqb b a.
Proof.
  destruct a, b; simpl; auto using String.eqb_sym, Qeq_bool_comm.
Qed.

Lemma cell_eqb_trans (a b c : cell) :
  cell_eqb a b = true -> cell_eqb b c = true -> cell_eqb a c = true.
Proof.
  destruct a, b, c; simpl; try discriminate;
    try (intros H1 H2; apply String.eqb_eq in H1; now subst);
    apply Qeq_bool_trans.
Qed.

Lemma cell_eqb_NaN_r (a : cell) : cell_eqb a CNaN = false.
Proof. now destruct a. Qed.

Lemma cell_eqb_isna_l (a b : cell) : cell_eqb a b = true -> isna a = false.
Proof. destruct a; simpl; [reflexivity .. | discriminate]. Qed.

(** Values that compare equal compare alike with any third value. *)
Lemma cell_eqb_congr (a b y : cell) :
  cell_eqb a b = true -> cell_eqb a y = cell_eqb b y.
Proof.
  intros Hab.
  destruct (cell_eqb a y) eqn:Hay, (cell_eqb b y) eqn:Hby; trivial.
  - rewrite cell_eqb_sym in Hab.
    now rewrite (cell_eqb_trans b a y Hab Hay) in Hby.
  - now rewrite (cell_eqb_trans a b y Hab Hby) in Hay.
Qed.

Lemma filter_all_false {A} (f : A -> bool) (l : list A) :
  (forall y, In y l -> f y = false) -> filter f l = [].
Proof.
  induction l as [|x l IH]; simpl; intros H; [reflexivity|].
  rewrite (H x (or_introl eq_refl)). apply IH. intros y Hy. apply H. now right.
Qed.

Lemma filter_filter_implied {A} (f g : A -> bool) (l : list A) :
  (forall y, f y = true -> g y = true) ->
  filter f (filter g l) = filter f l.
Proof.
  intros H. induction l as [|x l IH]; simpl; [reflexivity|].
  destruct (g x) eqn:Hg; simpl.
  - now rewrite IH.
  - destruct (f x) eqn:Hf; [|exact IH].
    apply H in Hf. congruence.
Qed.

Lemma length_filter_orb {A} (f g : A -> bool) (l : list A) :
  length (filter (fun y => f y || g y) l) =
  length (filter f l) + length (filter g (filter (fun y => negb (f y)) l)).
Proof.
  induction l as [|x l IH]; simpl; [reflexivity|].
  destruct (f x); simpl.
  - now rewrite IH.
  - destruct (g x); simpl; rewrite IH; lia.
Qed.

Definition outros (x : cell) (l : list cell) : list cell :=
  filter (fun y => negb (cell_eqb x y)) l.

(** Counting in [m] for the values of [U] other than [x] is counting, for
    all values of [U], in [m] without the rows equal to [x]. *)
Lemma soma_outros (x : cell) (m U : list cell) :
  list_sum (map (fun v => ocorrencias v m) (outros x U)) =
  list_sum (map (fun v => ocorrencias v (outros x m)) U).
Proof.
  induction U as [|v U IH]; simpl; [reflexivity|].
  destruct (cell_eqb x v) eqn:Hxv; simpl.
  - rewrite IH. unfold ocorrencias at 2, outros at 2.
    rewrite filter_all_false; [reflexivity|].
    intros y Hy. apply filter_In in Hy. destruct Hy as [_ Hy].
    apply negb_true_iff in Hy.
    rewrite <- (cell_eqb_congr x v y Hxv). exact Hy.
  - rewrite IH. f_equal. unfold ocorrencias, outros.
    rewrite filter_filter_implied; [reflexivity|].
    intros y Hvy. apply negb_true_iff.
    destruct (cell_eqb x y) eqn:Hxy; [|reflexivity].
    rewrite (cell_eqb_sym v y) in Hvy.
    now rewrite (cell_eqb_trans x y v Hxy Hvy) in Hxv.
Qed.

(** The counts of the distinct values of [l], taken in [m], cover each
    row of [m] that equals some value of [l] exactly once. *)
Lemma soma_unicos (l : list cell) :
  forall m,
  list_sum (map (fun v => ocorrencias v m) (unicos l)) =
  length (filter (fun y => existsb (fun u => cell_eqb u y) l) m).
Proof.
  induction l as [|x l IH]; intros m; simpl.
  - now rewrite filter_all_false.
  - destruct (isna x) eqn:Hx.
    + rewrite IH. f_equal. apply filter_ext. intros y.
      destruct x; try discriminate. reflexivity.
    + simpl. fold (outros x (unicos l)).
      rewrite soma_outros, IH, length_filter_orb. reflexivity.
Qed.

Lemma soma_insere (e : cell * nat) (l : list (cell * nat)) :
  list_sum (map snd (insere e l)) = snd e + list_sum (map snd l).
Proof.
  induction l as [|h t IH]; simpl; [reflexivity|].
  destruct (snd e <? snd h); simpl; [rewrite IH|]; lia.
Qed.

Lemma soma_ordena (l : list (cell * nat)) :
  list_sum (map snd (ordena l)) = list_sum (map snd l).
Proof.
  induction l as [|h t IH]; simpl; [reflexivity|].
  now rewrite soma_insere, IH.
Qed.

(** The plotted counts add up to the number of rows with a winner. *)
Lemma soma_distribuicao (col : list cell) :
  list_sum (map qtd (distribuicao col)) =
  length (filter (fun v => negb (isna v)) col).
Proof.
  unfold distribuicao, value_counts. rewrite map_map. simpl.
  change (fun x : cell * nat => snd x) with (@snd cell nat).
  rewrite soma_ordena, map_map. simpl.
  rewrite soma_unicos. f_equal. apply filter_ext_in. intros y Hy.
  destruct (isna y) eqn:Hna; simpl.
  - destruct y; try discriminate.
    clear. induction col as [|u col IH]; simpl; [reflexivity|].
    now rewrite cell_eqb_NaN_r.
  - apply existsb_exists. exists y. split; [assumption|].
    now apply cell_eqb_refl.
Qed.

(** How many of the distinct values of [l] equal [v]: one if some row
    does, none otherwise. *)
Lemma unicos_um (v : cell) (l : list cell) :
  length (filter (fun u => cell_eqb u v) (unicos l)) =
  if existsb (fun u => cell_eqb u v) l then 1 else 0.
Proof.
  induction l as [|x l IH]; simpl; [reflexivity|].
  destruct (isna x) eqn:Hx.
  - destruct x; try discriminate. simpl. exact IH.
  - simpl. destruct (cell_eqb x v) eqn:Hxv; simpl.
    + rewrite filter_all_false; [reflexivity|].
      intros u Hu. apply filter_In in Hu. destruct Hu as [_ Hu].
      apply negb_true_iff in Hu.
      destruct (cell_eqb u v) eqn:Huv; [|reflexivity].
      rewrite (cell_eqb_sym u v) in Huv.
      now rewrite (cell_eqb_trans x v u Hxv Huv) in Hu.
    + rewrite filter_filter_implied; [exact IH|].
      intros u Huv. apply negb_true_iff.
      destruct (cell_eqb x u) eqn:Hxu; [|reflexivity].
      now rewrite (cell_eqb_trans x u v Hxu Huv) in Hxv.
Qed.

Lemma filter_insere (P : cell * nat -> bool) e l :
  length (filter P (insere e l)) = length (filter P (e :: l)).
Proof.
  induction l as [|h t IH]; simpl; [reflexivity|].
  destruct (snd e <? snd h); simpl; [|reflexivity].
  simpl in IH. destruct (P h), (P e); simpl in *; lia.
Qed.

Lemma filter_ordena (P : cell * nat -> bool) l :
  length (filter P (ordena l)) = length (filter P l).
Proof.
  induction l as [|h t IH]; simpl; [reflexivity|].
  rewrite filter_insere. simpl. destruct (P h); simpl; now rewrite IH.
Qed.

Lemma length_filter_map {A B} (g : A -> B) (P : B -> bool) (l : list A) :
  length (filter P (map g l)) = length (filter (fun a => P (g a)) l).
Proof.
  induction l as [|x l IH]; simpl; [reflexivity|].
  destruct (P (g x)); simpl; now rewrite IH.
Qed.

Lemma entradas_de_valor (v : cell) (col : list cell) :
  length (filter (fun e => cell_eqb (carreira e) v) (distribuicao col)) =
  if existsb (fun u => cell_eqb u v) col then 1 else 0.
Proof.
  unfold distribuicao, value_counts.
  rewrite length_filter_map. simpl.
  rewrite filter_ordena, length_filter_map. simpl.
  apply unicos_um.
Qed.

Lemma cell_eqb_CStr (u : cell) (c : string) :
  cell_eqb u (CStr c) = true -> u = CStr c.
Proof.
  destruct u; simpl; try discriminate.
  intros H. apply String.eqb_eq in H. now subst.
Qed.

Lemma sem_vazios (col : list cell) :
  Forall (fun v => isna v = false) col ->
  filter (fun v => negb (isna v)) col = col.
Proof.
  induction 1 as [|v col Hv _ IH]; simpl; [reflexivity|].
  rewrite Hv. simpl. now f_equal.
Qed.

Section Painel.

Variable arquivo : Type.
Variable read_csv : arquivo -> result DataFrame.

Local Abbreviation painel := (dashboard arquivo read_csv).

(** X13. The counts the dashboard plots add up to the number of log rows
    that have a winner; when no winner cell is empty, that is the total
    shown above the chart. *)
Theorem distribution_adds_up f df col :
  read_csv f = Ok df -> coluna df "carreira_final" = Ok col ->
  exists dist,
    painel (Some f) =
      ([ total_de df; st_plotly_chart dist; st_dataframe df ], Ok tt) /\
    list_sum (map qtd dist) = length (filter (fun v => negb (isna v)) col) /\
    (Forall (fun v => isna v = false) col ->
     list_sum (map qtd dist) = len df).
Proof.
  intros Hf Hc. exists (distribuicao col).
  split; [now apply dashboard_com_log|].
  split; [apply soma_distribuicao|].
  intros Hall. rewrite soma_distribuicao.
  assert (Hlen : length col = len df).
  { unfold coluna in Hc. destruct (existsb _ _); [|discriminate].
    injection Hc as <-. apply length_map. }
  rewrite <- Hlen. f_equal. now apply sem_vazios.
Qed.

(** X14. Every category that won in at least one row has exactly one
    entry in the plotted distribution, holding the number of rows it won
    and its display label (NaN for a code that is not in [CARREIRAS]). *)
Theorem every_winner_has_one_entry f df col c :
  read_csv f = Ok df -> coluna df "carreira_final" = Ok col ->
  In (CStr c) col ->
  exists dist e,
    painel (Some f) =
      ([ total_de df; st_plotly_chart dist; st_dataframe df ], Ok tt) /\
    In e dist /\ carreira e = CStr c /\
    qtd e = length (filter (cell_eqb (CStr c)) col) /\
    Carreira e = map_CARREIRAS (CStr c) /\
    length (filter (fun e' => cell_eqb (carreira e') (CStr c)) dist) = 1.
Proof.
  intros Hf Hc Hin. exists (distribuicao col).
  pose proof (entradas_de_valor (CStr c) col) as Hum.
  assert (Hex : existsb (fun u => cell_eqb u (CStr c)) col = true).
  { apply existsb_exists. exists (CStr c). split; [assumption|].
    simpl. apply String.eqb_refl. }
  rewrite Hex in Hum.
  destruct (filter (fun e => cell_eqb (carreira e) (CStr c))
                   (distribuicao col)) as [|e resto] eqn:Hfil;
    [discriminate|].
  assert (He : In e (filter (fun e => cell_eqb (carreira e) (CStr c))
                            (distribuicao col)))
    by (rewrite Hfil; now left).
  apply filter_In in He. destruct He as [He Heq].
  apply cell_eqb_CStr in Heq.
  exists e. split; [now apply dashboard_com_log|].
  split; [exact He|]. split; [exact Heq|]. split; [|split].
  - destruct (distribuicao_In e col He) as (_ & _ & Hq).
    rewrite Hq, Heq. reflexivity.
  - unfold distribuicao in He. apply in_map_iff in He.
    destruct He as (vn & <- & _). simpl in *. now rewrite Heq.
  - exact Hum.
Qed.

(** X15. A log without the winner column is not handled: the total is
    shown, then [KeyError] leaves the block. *)
Theorem log_without_winner_column f df :
  read_csv f = Ok df -> ~ In "carreira_final" (columns df) ->
  painel (Some f) = ([total_de df], Raise KeyError).
Proof.
  intros Hf Hcol. unfold dashboard. simpl. rewrite Hf. simpl.
  unfold coluna.
  assert (Hex : existsb (String.eqb "carreira_final") (columns df) = false).
  { destruct (existsb _ _) eqn:E; [|reflexivity].
    apply existsb_exists in E. destruct E as (c & Hc & Heq).
    apply String.eqb_eq in Heq. subst c. contradiction. }
  rewrite Hex. reflexivity.
Qed.

(** X16. A log file that exists but cannot be read is not handled
    either: nothing is shown and the error of [read_csv] leaves the
    block; only a missing file gives the notice. *)
Theorem unreadable_log_propagates f e :
  read_csv f = Raise e -> e <> FileNotFoundError ->
  dashboard arquivo read_csv (Some f) = ([], Raise e).
Proof.
  intros Hf He. unfold dashboard. simpl. rewrite Hf. simpl.
  destruct e; try reflexivity. congruence.
Qed.

End Painel.

Lemma distribution_adds_up_witness :
  exists dist,
    dashboard DataFrame Ok (Some log_exemplo) =
      ([ total_de log_exemplo; st_plotly_chart dist;
         st_dataframe log_exemplo ], Ok tt) /\
    list_sum (map qtd dist)
      = length (filter (fun v => negb (isna v)) coluna_exemplo) /\
    (Forall (fun v => isna v = false) coluna_exemplo ->
     list_sum (map qtd dist) = len log_exemplo).
Proof.
  apply (distribution_adds_up DataFrame Ok log_exemplo log_exemplo
                              coluna_exemplo); reflexivity.
Defined.

Lemma every_winner_has_one_entry_witness :
  exists dist e,
    dashboard DataFrame Ok (Some log_exemplo) =
      ([ total_de log_exemplo; st_plotly_chart dist;
         st_dataframe log_exemplo ], Ok tt) /\
    In e dist /\ carreira e = CStr "advocacia" /\
    qtd e = length (filter (cell_eqb (CStr "advocacia")) coluna_exemplo) /\
    Carreira e = map_CARREIRAS (CStr "advocacia") /\
    length (filter (fun e' => cell_eqb (carreira e') (CStr "advocacia"))
                   dist) = 1.
Proof.
  apply (every_winner_has_one_entry DataFrame Ok log_exemplo log_exemplo
                                    coluna_exemplo "advocacia").
  - reflexivity.
  - reflexivity.
  - simpl. tauto.
Defined.

Lemma log_without_winner_column_witness :
  dashboard DataFrame Ok (Some ResultLogExtra.log_antigo)
    = ([total_de ResultLogExtra.log_antigo], Raise KeyError).
Proof.
  apply (log_without_winner_column DataFrame Ok ResultLogExtra.log_antigo
                                   ResultLogExtra.log_antigo).
  - reflexivity.
  - simpl. intuition discriminate.
Defined.

Lemma unreadable_log_propagates_witness :
  dashboard unit (fun _ => Raise ValueError) (Some tt)
    = ([], Raise ValueError).
Proof.
  apply (unreadable_log_propagates unit (fun _ => Raise ValueError) tt
                                   ValueError).
  - reflexivity.
  - discriminate.
Defined.

End DashboardExtra.

(* ================================================================= *)
(** * Properties of the Report Writer *)

Module ReportFacts.
Import PyFacts Scorer ResultLog Report.

(** [CARREIRAS[c]] for a code known to be a key. *)
Definition rotulo (c : string) : string :=
  match dict_get c CARREIRAS with
  | Some label => label
  | None => ""
  end.

Lemma dict_index_rotulo (c : string) :
  In c (keys CARREIRAS) -> dict_index CARREIRAS c = Ok (rotulo c).
Proof.
  intros Hc. destruct (dict_get_In c CARREIRAS Hc) as [label Hl].
  unfold dict_index, rotulo. now rewrite Hl.
Qed.

Lemma dict_index_unknown {V} (c : string) (d : dict string V) :
  ~ In c (keys d) -> dict_index d c = Raise KeyError.
Proof.
  intros Hc. unfold dict_index. now rewrite (dict_get_not_In c d Hc).
Qed.

Lemma for_each_app {A S} (f : A -> S -> result S) (l1 l2 : list A) (s : S) :
  for_each f (l1 ++ l2) s = (s' <- for_each f l1 s ;; for_each f l2 s').
Proof.
  revert s. induction l1 as [|x l1 IH]; intros s; simpl; [reflexivity|].
  destruct (f x s); simpl; [apply IH | reflexivity].
Qed.

(** The calls made after the title block, for a winner with label
    [label] and the score lines [linhas]. *)
Definition corpo (label descricao : string) (linhas : list comando)
  : list comando :=
  [ multi_cell 0 8 [Texto "Carreira mais compatível: "; Texto label];
    pdf_ln 4;
    set_font "Arial" "B" 12;
    pdf_cell 0 8 [Texto "Pontuações:"] true;
    set_font "Arial" "" 12 ]
  ++ linhas
  ++ [ pdf_ln 4;
       set_font "Arial" "B" 12;
       pdf_cell 0 8 [Texto "Descrição da carreira:"] true;
       set_font "Arial" "" 12;
       multi_cell 0 7 [Texto descricao] ].

Definition participante (nome : string) : list comando :=
  if truthy nome
  then [pdf_cell 0 8 [Texto "Participante: "; Texto nome] true]
  else [].

(** The whole sequence of calls for one report. *)
Definition roteiro (data nome : string) (tally : dict string nat)
  (w descricao : string) : list comando :=
  [ add_page;
    set_font "Arial" "B" 16;
    pdf_cell 0 10 [Texto "Relatório - Quiz Vocacional Jurídico"] true;
    set_font "Arial" "" 12 ]
  ++ participante nome
  ++ [ pdf_cell 0 8 [Texto "Data: "; Texto data] true; pdf_ln 4 ]
  ++ corpo (rotulo w) descricao
       (map (fun cp => linha_pontuacao (or_1 (sum (values tally)))
                         (rotulo (fst cp)) (snd cp))
            tally).

Section Writer.

Variable pdf : Type.
Variable bytes : Type.
Variable FPDF : pdf.
Variable chama : pdf -> comando -> result pdf.
Variable output : pdf -> result bytes.

Local Abbreviation gerar := (gerar_pdf_relatorio pdf bytes FPDF chama output).

(** Making the calls of a list in order on a fresh object, then asking
    for the document. *)
Definition escreve (cmds : list comando) : result bytes :=
  p <- for_each (fun c p => chama p c) cmds FPDF ;; output p.

Lemma loop_pontuacao (total : nat) (tally : dict string nat) :
  Forall (fun cp => In (fst cp) (keys CARREIRAS)) tally ->
  forall p,
  for_each
    (fun cp p =>
       label <- dict_index CARREIRAS (fst cp) ;;
       chama p (linha_pontuacao total label (snd cp)))
    tally p
  = for_each (fun c p => chama p c)
      (map (fun cp => linha_pontuacao total (rotulo (fst cp)) (snd cp)) tally)
      p.
Proof.
  induction 1 as [|cp tally Hcp _ IH]; intros p; simpl; [reflexivity|].
  rewrite (dict_index_rotulo _ Hcp). simpl.
  destruct (chama p _); simpl; [apply IH | reflexivity].
Qed.

(** With an unknown key in the tally the loop cannot complete. *)
Lemma loop_pontuacao_unknown (total : nat) (tally : dict string nat) :
  Exists (fun cp => ~ In (fst cp) (keys CARREIRAS)) tally ->
  forall p, exists e,
  for_each
    (fun cp p =>
       label <- dict_index CARREIRAS (fst cp) ;;
       chama p (linha_pontuacao total label (snd cp)))
    tally p
  = Raise e.
Proof.
  induction tally as [|cp tally IH]; intros Hex p.
  - inversion Hex.
  - simpl. destruct (in_dec string_dec (fst cp) (keys CARREIRAS)) as [Hin|Hout].
    + rewrite (dict_index_rotulo _ Hin). simpl.
      destruct (chama p _) as [p'|e]; simpl; [|eauto].
      apply IH. inversion Hex; subst; [contradiction | assumption].
    + rewrite (dict_index_unknown _ _ Hout). simpl. eauto.
Qed.

Ltac passo :=
  match goal with
  | |- context [chama ?p ?c] =>
      let p' := fresh "p" in
      destruct (chama p c) as [p'|]; simpl; [|try reflexivity; eauto]
  end.

(** With known codes only, the function makes the calls of [roteiro] in
    order and asks for the document. *)
Lemma gerar_roteiro (data nome : string)
  (tally : dict string nat) (w descricao : string) :
  In w (keys CARREIRAS) ->
  Forall (fun cp => In (fst cp) (keys CARREIRAS)) tally ->
  gerar data nome tally w descricao
    = escreve (roteiro data nome tally w descricao).
Proof.
  intros Hw Htally.
  unfold gerar_pdf_relatorio, escreve, roteiro, participante, corpo.
  rewrite (dict_index_rotulo w Hw). simpl.
  do 4 passo.
  destruct (truthy nome); simpl.
  - do 8 passo. rewrite (loop_pontuacao _ tally Htally), for_each_app.
    destruct (for_each _ _ _) as [q|]; simpl; [|reflexivity].
    do 5 passo. reflexivity.
  - do 7 passo. rewrite (loop_pontuacao _ tally Htally), for_each_app.
    destruct (for_each _ _ _) as [q|]; simpl; [|reflexivity].
    do 5 passo. reflexivity.
Qed.

(** X17. For a winner and a tally whose codes are all keys of
    [CARREIRAS] (as [calcular_resultados] returns them), building the
    report is making the calls of [roteiro] in order and asking for the
    document: no lookup raises, and whatever ends the function early is
    an error of the PDF library. *)
Theorem report_is_its_script (data nome : string)
  (tally : dict string nat) (w descricao : string) :
  In w (keys CARREIRAS) ->
  Forall (fun cp => In (fst cp) (keys CARREIRAS)) tally ->
  gerar data nome tally w descricao
    = escreve (roteiro data nome tally w descricao).
Proof. exact (gerar_roteiro data nome tally w descricao). Qed.

Lemma gerar_unknown (data nome : string)
  (tally : dict string nat) (w descricao : string) :
  ~ In w (keys CARREIRAS) \/
  Exists (fun cp => ~ In (fst cp) (keys CARREIRAS)) tally ->
  exists e, gerar data nome tally w descricao = Raise e.
Proof.
  intros Hbad. unfold gerar_pdf_relatorio.
  do 4 passo.
  assert (Hresto : forall p,
    exists e,
      (p <- chama p (pdf_cell 0 8 [Texto "Data: "; Texto data] true) ;;
       p <- chama p (pdf_ln 4) ;;
       label <- dict_index CARREIRAS w ;;
       p <- chama p (multi_cell 0 8
                       [Texto "Carreira mais compatível: "; Texto label]) ;;
       p <- chama p (pdf_ln 4) ;;
       p <- chama p (set_font "Arial" "B" 12) ;;
       p <- chama p (pdf_cell 0 8 [Texto "Pontuações:"] true) ;;
       p <- chama p (set_font "Arial" "" 12) ;;
       p <- for_each
              (fun cp p =>
                 label <- dict_index CARREIRAS (fst cp) ;;
                 chama p (linha_pontuacao (or_1 (sum (values tally))) label
                            (snd cp)))
              tally p ;;
       p <- chama p (pdf_ln 4) ;;
       p <- chama p (set_font "Arial" "B" 12) ;;
       p <- chama p (pdf_cell 0 8 [Texto "Descrição da carreira:"] true) ;;
       p <- chama p (set_font "Arial" "" 12) ;;
       p <- chama p (multi_cell 0 7 [Texto descricao]) ;;
       output p) = Raise e).
  { intros q. do 2 passo.
    destruct (in_dec string_dec w (keys CARREIRAS)) as [Hin|Hout].
    - destruct Hbad as [Hw|Hex]; [contradiction|].
      rewrite (dict_index_rotulo w Hin). simpl. do 5 passo.
      match goal with
      | |- context [for_each _ tally ?p] =>
          destruct (loop_pontuacao_unknown (or_1 (sum (values tally))) tally
                      Hex p) as [e He]
      end.
      rewrite He. simpl. eauto.
    - rewrite (dict_index_unknown _ _ Hout). simpl. eauto. }
  destruct (truthy nome); simpl.
  - passo. apply Hresto.
  - apply Hresto.
Qed.

(** X18. No report is produced for a winner, or for a tally code, that
    is not a key of [CARREIRAS]: the function raises. *)
Theorem no_report_for_unknown_code (data nome : string)
  (tally : dict string nat) (w descricao : string) :
  ~ In w (keys CARREIRAS) \/
  Exists (fun cp => ~ In (fst cp) (keys CARREIRAS)) tally ->
  exists e, gerar data nome tally w descricao = Raise e.
Proof. exact (gerar_unknown data nome tally w descricao). Qed.

End Writer.

(** A writer that only records the calls made on it. *)
Definition grava (p : list comando) (c : comando) : result (list comando) :=
  Ok (p ++ [c]).

Definition gerar_gravado :=
  gerar_pdf_relatorio (list comando) (list comando) [] grava Ok.

Lemma for_each_grava (cmds p : list comando) :
  for_each (fun c p => grava p c) cmds p = Ok (p ++ cmds).
Proof.
  revert p. induction cmds as [|c cmds IH]; intros p; simpl.
  - now rewrite app_nil_r.
  - rewrite IH. now rewrite <- app_assoc.
Qed.

Lemma gerar_gravado_roteiro data nome tally w descricao :
  In w (keys CARREIRAS) ->
  Forall (fun cp => In (fst cp) (keys CARREIRAS)) tally ->
  gerar_gravado data nome tally w descricao
    = Ok (roteiro data nome tally w descricao).
Proof.
  intros Hw Htally. unfold gerar_gravado.
  rewrite (gerar_roteiro _ _ _ _ _ data nome tally w descricao Hw Htally).
  unfold escreve. now rewrite for_each_grava.
Qed.

(** What the recording writer returns is the script, and it returns only
    for known codes. *)
Lemma gerar_gravado_Ok data nome tally w descricao cmds :
  gerar_gravado data nome tally w descricao = Ok cmds ->
  In w (keys CARREIRAS) /\
  Forall (fun cp => In (fst cp) (keys CARREIRAS)) tally /\
  cmds = roteiro data nome tally w descricao.
Proof.
  intros Hg.
  destruct (in_dec string_dec w (keys CARREIRAS)) as [Hw|Hw].
  - destruct (Forall_Exists_dec
                (fun cp : string * nat => In (fst cp) (keys CARREIRAS))
                (fun cp => in_dec string_dec (fst cp) (keys CARREIRAS))
                tally) as [Hall|Hex].
    + rewrite (gerar_gravado_roteiro _ _ _ _ _ Hw Hall) in Hg.
      injection Hg as <-. auto.
    + destruct (gerar_unknown _ _ [] grava Ok data nome tally w descricao
                  (or_intror Hex)) as [e He].
      unfold gerar_gravado in Hg. congruence.
  - destruct (gerar_unknown _ _ [] grava Ok data nome tally w descricao
                (or_introl Hw)) as [e He].
    unfold gerar_gravado in Hg. congruence.
Qed.

Definition linha_participante (n : string) : comando :=
  pdf_cell 0 8 [Texto "Participante: "; Texto n] true.

Lemma participante_no_roteiro data nome tally w descricao n :
  In (linha_participante n) (roteiro data nome tally w descricao) <->
  truthy nome = true /\ n = nome.
Proof.
  unfold roteiro, participante, corpo, linha_participante.
  destruct (truthy nome) eqn:Hn; simpl; split.
  - intros H.
    repeat (destruct H as [H|H]; [try discriminate|]).
    + injection H as <-. auto.
    + apply in_app_or in H. destruct H as [H|H].
      * apply in_map_iff in H. destruct H as (cp & H & _). discriminate.
      * simpl in H. intuition discriminate.
  - intros [_ ->]. tauto.
  - intros H.
    repeat (destruct H as [H|H]; [try discriminate|]).
    apply in_app_or in H. destruct H as [H|H].
    + apply in_map_iff in H. destruct H as (cp & H & _). discriminate.
    + simpl in H. intuition discriminate.
  - intros [H _]. discriminate.
Qed.

(** X19. The report has a participant line exactly when the name is not
    empty, and then it carries that name. *)
Theorem participant_line_iff_name data nome tally w descricao cmds n :
  gerar_gravado data nome tally w descricao = Ok cmds ->
  (In (pdf_cell 0 8 [Texto "Participante: "; Texto n] true) cmds <->
   nome <> "" /\ n = nome).
Proof.
  intros Hg. apply gerar_gravado_Ok in Hg. destruct Hg as (_ & _ & ->).
  rewrite (participante_no_roteiro data nome tally w descricao n).
  destruct nome; simpl; intuition congruence.
Qed.

Lemma participant_line_iff_name_witness :
  In (pdf_cell 0 8 [Texto "Participante: "; Texto "Ana"] true)
     (roteiro "01/01/2025 10:00" "Ana" ResultLogFacts.tally_exemplo
              "advocacia" "Texto.") <->
  "Ana" <> "" /\ "Ana" = "Ana".
Proof.
  apply (participant_line_iff_name "01/01/2025 10:00" "Ana"
           ResultLogFacts.tally_exemplo "advocacia" "Texto.").
  reflexivity.
Defined.

(** X20. For the tally and winner of a scored quiz, the report holds one
    score line per category, with the category's label and count, and the
    percentage on that line is the one stored in the log record. *)
Theorem report_matches_log {I} (R : dict I string) tally w
  (agora data nome descricao c : string) (p : nat) :
  calcular_resultados R = Ok (tally, w) -> In (c, p) tally ->
  exists cmds label q,
    gerar_gravado data nome tally w descricao = Ok cmds /\
    dict_get c CARREIRAS = Some label /\
    In (pdf_cell 0 8
          [ Texto "- "; Texto label; Texto ": "; Inteiro p;
            Texto " pontos ("; Decimal1 q; Texto "%)" ] true) cmds /\
    dict_get ("pontos_" ++ c)%string (monta_linha agora nome tally w)
      = Some (CInt p) /\
    dict_get ("perc_" ++ c)%string (monta_linha agora nome tally w)
      = Some (CFloat q).
Proof.
  intros Hc Hin.
  pose proof (ScorerFacts.calcular_resultados_keys R tally w Hc) as Hk.
  assert (Hnd : NoDup (keys tally))
    by (rewrite Hk; exact ScorerFacts.NoDup_codigos).
  assert (Hall : Forall (fun cp => In (fst cp) (keys CARREIRAS)) tally).
  { apply Forall_forall. intros cp Hcp.
    change (keys CARREIRAS) with ScorerFacts.codigos. rewrite <- Hk.
    now apply in_map. }
  assert (Hw : In w (keys CARREIRAS)).
  { destruct (ScorerFacts.winner_split R tally w Hc)
      as (pre & nw & post & Heq & _).
    change (keys CARREIRAS) with ScorerFacts.codigos. rewrite <- Hk, Heq.
    unfold keys. rewrite map_app. apply in_or_app. right. now left. }
  assert (Hcin : In c (keys CARREIRAS)).
  { rewrite Forall_forall in Hall. exact (Hall (c, p) Hin). }
  destruct (dict_get_In c CARREIRAS Hcin) as [label Hlabel].
  exists (roteiro data nome tally w descricao), label,
         (percentual p (or_1 (sum (values tally)))).
  split; [now apply gerar_gravado_roteiro|]. split; [exact Hlabel|].
  split.
  - unfold roteiro, corpo.
    apply in_or_app. right. apply in_or_app. right.
    apply in_or_app. right. apply in_or_app. right.
    apply in_or_app. left. apply in_map_iff. exists (c, p).
    split; [|assumption]. unfold linha_pontuacao, rotulo. cbn [fst snd].
    now rewrite Hlabel.
  - rewrite (ResultLogFacts.monta_linha_eq _ _ _ _ Hnd).
    exact (ResultLogFacts.dict_get_entradas _ tally c p Hnd Hin).
Qed.

Lemma report_matches_log_witness :
  exists cmds label q,
    gerar_gravado "01/01/2025 10:00" "Ana"
      [ ("advocacia", 0); ("magistratura", 2); ("ministerio_publico", 0);
        ("consultoria", 2) ] "magistratura" "Texto." = Ok cmds /\
    dict_get "consultoria" CARREIRAS = Some label /\
    In (pdf_cell 0 8
          [ Texto "- "; Texto label; Texto ": "; Inteiro 2;
            Texto " pontos ("; Decimal1 q; Texto "%)" ] true) cmds /\
    dict_get ("pontos_" ++ "consultoria")%string
      (monta_linha "2025-01-01T10:00:00" "Ana"
         [ ("advocacia", 0); ("magistratura", 2); ("ministerio_publico", 0);
           ("consultoria", 2) ] "magistratura")
      = Some (CInt 2) /\
    dict_get ("perc_" ++ "consultoria")%string
      (monta_linha "2025-01-01T10:00:00" "Ana"
         [ ("advocacia", 0); ("magistratura", 2); ("ministerio_publico", 0);
           ("consultoria", 2) ] "magistratura")
      = Some (CFloat q).
Proof.
  apply (report_matches_log ScorerFacts.respostas_empate).
  - reflexivity.
  - simpl. tauto.
Defined.

Lemma report_is_its_script_witness :
  gerar_pdf_relatorio (list comando) (list comando) [] grava Ok
    "01/01/2025 10:00" "" ResultLogFacts.tally_exemplo "advocacia" "Texto."
  = escreve (list comando) (list comando) [] grava Ok
      (roteiro "01/01/2025 10:00" "" ResultLogFacts.tally_exemplo
               "advocacia" "Texto.").
Proof.
  apply (report_is_its_script (list comando) (list comando) [] grava Ok).
  - simpl. tauto.
  - repeat constructor; simpl; tauto.
Defined.

Lemma no_report_for_unknown_code_witness :
  exists e,
    gerar_pdf_relatorio (list comando) (list comando) [] grava Ok
      "01/01/2025 10:00" "Ana" ResultLogFacts.tally_exemplo "notariado"
      "Texto." = Raise e.
Proof.
  apply (no_report_for_unknown_code (list comando) (list comando) [] grava Ok).
  left. simpl. intuition discriminate.
Defined.

End ReportFacts.

(* ================================================================= *)
(** * Properties of the submission block *)

Module QuizFacts.
Import PyFacts Scorer Narrative ResultLog Report Dashboard Quiz.
Import ScorerFacts NarrativeFacts ResultLogFacts ReportFacts.

(** One completed form: the two clock readings, the name typed, the
    selections. *)
Record submissao (I : Type) : Type := {
  s_agora : string;
  s_data : string;
  s_nome : string;
  s_respostas : dict I string
}.
Arguments s_agora {I} _.
Arguments s_data {I} _.
Arguments s_nome {I} _.
Arguments s_respostas {I} _.

(** The record a submission sends to the log. *)
Definition envio_de {I} (s : submissao I) : envio :=
  match calcular_resultados (s_respostas s) with
  | Ok (t, w) =>
      {| agora := s_agora s; nome := s_nome s;
         resultados := t; carreira_final := w |}
  | Raise _ =>
      {| agora := s_agora s; nome := s_nome s;
         resultados := []; carreira_final := "" |}
  end.

Lemma comprehension_rotulos (tally : dict string nat) :
  keys tally = codigos ->
  comprehension (dict_index CARREIRAS) (keys tally) = Ok (values CARREIRAS).
Proof. intros ->. reflexivity. Qed.

Lemma winner_known {I} (R : dict I string) tally w :
  calcular_resultados R = Ok (tally, w) -> In w (keys CARREIRAS).
Proof.
  intros Hc. pose proof (calcular_resultados_keys R tally w Hc) as Hk.
  destruct (winner_split R tally w Hc) as (pre & nw & post & Heq & _).
  change (keys CARREIRAS) with codigos. rewrite <- Hk, Heq.
  unfold keys. rewrite map_app. apply in_or_app. right. now left.
Qed.

Lemma envio_de_completo {I} (s : submissao I) :
  respostas_aceitas (s_respostas s) -> tally_completo (envio_de s).
Proof.
  intros Hok. unfold tally_completo, envio_de.
  destruct (calcular_resultados_total _ Hok) as (t & w & Hc).
  rewrite Hc. simpl. exact (calcular_resultados_keys _ t w Hc).
Qed.

(** The winner cell of a log row. *)
Lemma cell_at_carreira_final (e : envio) :
  tally_completo e ->
  cell_at colunas_log (registo e) "carreira_final" = CStr (carreira_final e).
Proof.
  intros He. unfold registo, linha_de. rewrite monta_linha_eq.
  - reflexivity.
  - unfold tally_completo in He. rewrite He. exact NoDup_codigos.
Qed.

Lemma coluna_tabela (envios : list envio) :
  Forall tally_completo envios ->
  coluna (tabela envios) "carreira_final"
    = Ok (map (fun e => CStr (carreira_final e)) envios).
Proof.
  intros Hall. unfold coluna. simpl. f_equal.
  rewrite map_map. apply map_ext_in. intros e He.
  rewrite Forall_forall in Hall. now apply cell_at_carreira_final, Hall.
Qed.

Section Envio.

Variable arquivo : Type.
Variable to_csv : DataFrame -> arquivo.
Variable read_csv : arquivo -> result DataFrame.
Variable pdf : Type.
Variable bytes : Type.
Variable FPDF : pdf.
Variable chama : pdf -> comando -> result pdf.
Variable output : pdf -> result bytes.
Variable amb : ambiente.

Local Abbreviation envia :=
  (enviar arquivo to_csv read_csv pdf bytes FPDF chama output amb).
Local Abbreviation salvar := (salvar_resultado_csv arquivo to_csv read_csv).
Local Abbreviation gerar := (gerar_pdf_relatorio pdf bytes FPDF chama output).

(** The state of the log after each of a sequence of submissions. *)
Definition apos {I} (subs : list (submissao I)) (fs : option arquivo)
  : option arquivo :=
  fold_left
    (fun fs s =>
       snd (fst (envia fs (s_agora s) (s_data s) (s_nome s) (s_respostas s))))
    subs fs.

(** What the block shows before it saves. *)
Definition mostrado (tally : dict string nat) (w texto : string)
  : list (saida bytes) :=
  [ st_success bytes ("Carreira mais compatível: **" ++ rotulo w ++ "**")%string;
    st_plotly_bar bytes (values CARREIRAS) (values tally);
    st_markdown bytes "### Análise da carreira sugerida";
    st_write bytes texto ].

(** The block up to the call of [salvar_resultado_csv], for a scored
    quiz: the two label lookups succeed. *)
Lemma enviar_pontuado {I} (R : dict I string) fs agora data nome tally w
  texto :
  calcular_resultados R = Ok (tally, w) ->
  get_gemini_descricao amb w = Ok texto ->
  envia fs agora data nome R =
    match salvar fs agora nome tally w with
    | Raise e => (mostrado tally w texto, fs, Raise e)
    | Ok fs' =>
        match gerar data nome tally w texto with
        | Raise e => (mostrado tally w texto, fs', Raise e)
        | Ok b =>
            (mostrado tally w texto
             ++ [st_download_button bytes "📄 Baixar PDF" b "relatorio.pdf"
                                    "application/pdf"],
             fs', Ok tt)
        end
    end.
Proof.
  intros Hc Ht. unfold enviar. rewrite Hc.
  rewrite (dict_index_rotulo w (winner_known R tally w Hc)).
  rewrite (comprehension_rotulos tally (calcular_resultados_keys R tally w Hc)).
  rewrite Ht. reflexivity.
Qed.

(** X21. A submission whose selections are scored, saved and rendered
    shows the winner's label, the chart of the four labels with their
    counts, the narrative and the download button, in this order, and
    leaves the log as [salvar_resultado_csv] wrote it. *)
Theorem submission_succeeds {I} (R : dict I string) fs fs' agora data nome
  tally w texto b :
  calcular_resultados R = Ok (tally, w) ->
  get_gemini_descricao amb w = Ok texto ->
  salvar fs agora nome tally w = Ok fs' ->
  gerar data nome tally w texto = Ok b ->
  exists label,
    dict_get w CARREIRAS = Some label /\
    envia fs agora data nome R =
      ([ st_success bytes ("Carreira mais compatível: **" ++ label ++ "**")%string;
         st_plotly_bar bytes
           ["Advocacia"; "Magistratura"; "Ministério Público";
            "Consultoria Jurídica"]
           (values tally);
         st_markdown bytes "### Análise da carreira sugerida";
         st_write bytes texto;
         st_download_button bytes "📄 Baixar PDF" b "relatorio.pdf"
                            "application/pdf" ],
       fs', Ok tt).
Proof.
  intros Hc Ht Hs Hg.
  destruct (dict_get_In w CARREIRAS (winner_known R tally w Hc))
    as [label Hl].
  exists label. split; [exact Hl|].
  rewrite (enviar_pontuado R fs agora data nome tally w texto Hc Ht).
  rewrite Hs, Hg. unfold mostrado, rotulo. rewrite Hl. reflexivity.
Qed.

(** X22. The record is saved before the report is built: when building
    the report raises, the block ends with that error and without a
    download button, but the log already holds the new row. *)
Theorem row_saved_before_report {I} (R : dict I string) fs fs' agora data
  nome tally w texto e :
  calcular_resultados R = Ok (tally, w) ->
  get_gemini_descricao amb w = Ok texto ->
  salvar fs agora nome tally w = Ok fs' ->
  gerar data nome tally w texto = Raise e ->
  envia fs agora data nome R = (mostrado tally w texto, fs', Raise e).
Proof.
  intros Hc Ht Hs Hg.
  rewrite (enviar_pontuado R fs agora data nome tally w texto Hc Ht).
  now rewrite Hs, Hg.
Qed.

(** X23. A selection that is neither empty nor a category code ends the
    block at once: nothing is shown, the log is untouched, [KeyError]
    is raised. *)
Theorem unknown_selection_aborts {I} (R : dict I string) fs agora data nome :
  Exists (fun r => truthy r = true /\ ~ In r (keys CARREIRAS)) (values R) ->
  envia fs agora data nome R = ([], fs, Raise KeyError).
Proof.
  intros Hbad. unfold enviar.
  now rewrite (calcular_resultados_unknown R Hbad).
Qed.

(** The log state after a block whose selections are accepted. *)
Lemma estado_apos_envio {I} (s : submissao I) fs :
  respostas_aceitas (s_respostas s) ->
  snd (fst (envia fs (s_agora s) (s_data s) (s_nome s) (s_respostas s))) =
    match salvar fs (agora (envio_de s)) (nome (envio_de s))
            (resultados (envio_de s)) (carreira_final (envio_de s)) with
    | Ok fs' => fs'
    | Raise _ => fs
    end.
Proof.
  intros Hok. destruct (calcular_resultados_total _ Hok) as (t & w & Hc).
  destruct (get_gemini_descricao_total amb w) as [texto Ht].
  rewrite (enviar_pontuado _ fs _ _ _ t w texto Hc Ht).
  unfold envio_de. rewrite Hc. simpl.
  destruct (salvar fs _ _ t w) as [fs'|e]; [|reflexivity].
  destruct (gerar _ _ t w texto); reflexivity.
Qed.

Hypothesis read_csv_to_csv : forall df, read_csv (to_csv df) = Ok df.

Lemma apos_desde {I} (depois : list (submissao I)) :
  forall antes f,
  Forall tally_completo antes ->
  Forall (fun s => respostas_aceitas (s_respostas s)) depois ->
  read_csv f = Ok (tabela antes) ->
  exists f',
    apos depois (Some f) = Some f' /\
    read_csv f' = Ok (tabela (antes ++ map envio_de depois)).
Proof.
  induction depois as [|s depois IH]; intros antes f Hantes Hdepois Hf.
  - exists f. simpl. rewrite app_nil_r. now split.
  - inversion Hdepois as [|? ? Hs Hresto]; subst.
    unfold apos. cbn [fold_left]. rewrite (estado_apos_envio s _ Hs).
    rewrite (salvar_com_arquivo arquivo to_csv read_csv f (tabela antes)
               _ _ _ _ Hf).
    fold (linha_de (envio_de s)).
    rewrite (concat_tabela antes (envio_de s) Hantes (envio_de_completo s Hs)).
    destruct (IH (antes ++ [envio_de s])
                 (to_csv (tabela (antes ++ [envio_de s]))))
      as (f' & Hrun & Hread).
    + apply Forall_app. split; [assumption|].
      constructor; [now apply envio_de_completo | constructor].
    + assumption.
    + apply read_csv_to_csv.
    + exists f'. split; [exact Hrun|].
      rewrite Hread. simpl. now rewrite <- app_assoc.
Qed.

Lemma apos_tabela {I} (subs : list (submissao I)) :
  subs <> [] ->
  Forall (fun s => respostas_aceitas (s_respostas s)) subs ->
  exists f,
    apos subs None = Some f /\
    read_csv f = Ok (tabela (map envio_de subs)).
Proof.
  destruct subs as [|s subs]; [congruence|]. intros _ Hall.
  inversion Hall as [|? ? Hs Hresto]; subst.
  unfold apos. cbn [fold_left]. rewrite (estado_apos_envio s _ Hs).
  rewrite (salvar_sem_arquivo arquivo to_csv read_csv).
  fold (linha_de (envio_de s)).
  rewrite (DataFrame_of_linha_de (envio_de s) (envio_de_completo s Hs)).
  destruct (apos_desde subs [envio_de s] (to_csv (tabela [envio_de s])))
    as (f' & Hrun & Hread); trivial.
  - constructor; [now apply envio_de_completo | constructor].
  - exists f'. now split.
Qed.


End Envio.

Definition log_antigo_vazio : DataFrame :=
  {| columns := ["timestamp"; "nome"]; rows := [] |}.

(** A concrete setting: the log file holds the table itself, the PDF
    writer records its calls, the narrative service cannot be reached. *)
Definition envia_exemplo (fs : option DataFrame) (agora data nome : string)
  {I} (respostas : dict I string) :=
  enviar DataFrame (fun df => df) Ok (list comando) (list comando) []
         grava Ok ambiente_sem_rede fs agora data nome respostas.

Definition tally_empate : dict string nat :=
  [ ("advocacia", 0); ("magistratura", 2); ("ministerio_publico", 0);
    ("consultoria", 2) ].

Definition texto_magistratura : string :=
  NarrativeExtra.descricao_de "magistratura".

Lemma submission_succeeds_witness :
  exists label,
    dict_get "magistratura" CARREIRAS = Some label /\
    envia_exemplo None "2025-01-01T10:00:00" "01/01/2025 10:00" "Ana"
                  respostas_empate =
      ([ st_success (list comando)
           ("Carreira mais compatível: **" ++ label ++ "**")%string;
         st_plotly_bar (list comando)
           ["Advocacia"; "Magistratura"; "Ministério Público";
            "Consultoria Jurídica"]
           (values tally_empate);
         st_markdown (list comando) "### Análise da carreira sugerida";
         st_write (list comando) texto_magistratura;
         st_download_button (list comando) "📄 Baixar PDF"
           (roteiro "01/01/2025 10:00" "Ana" tally_empate "magistratura"
                    texto_magistratura)
           "relatorio.pdf" "application/pdf" ],
       Some (DataFrame_of
               (monta_linha "2025-01-01T10:00:00" "Ana" tally_empate
                            "magistratura")),
       Ok tt).
Proof.
  apply (submission_succeeds DataFrame (fun df => df) Ok (list comando)
           (list comando) [] grava Ok ambiente_sem_rede respostas_empate
           None); reflexivity.
Defined.

Lemma row_saved_before_report_witness :
  enviar DataFrame (fun df => df) Ok (list comando) (list comando) []
         grava (fun _ => Raise (OtherException "latin-1")) ambiente_sem_rede
         None "2025-01-01T10:00:00" "01/01/2025 10:00" "Ana" respostas_empate
  = (mostrado (list comando) tally_empate "magistratura" texto_magistratura,
     Some (DataFrame_of
             (monta_linha "2025-01-01T10:00:00" "Ana" tally_empate
                          "magistratura")),
     Raise (OtherException "latin-1")).
Proof.
  apply (row_saved_before_report DataFrame (fun df => df) Ok (list comando)
           (list comando) [] grava (fun _ => Raise (OtherException "latin-1"))
           ambiente_sem_rede respostas_empate None); reflexivity.
Defined.

Lemma unknown_selection_aborts_witness :
  envia_exemplo (Some log_antigo_vazio) "2025-01-01T10:00:00"
                "01/01/2025 10:00" "Ana"
                [ (1, "advocacia"); (2, "notariado") ]
  = ([], Some log_antigo_vazio, Raise KeyError).
Proof.
  apply (unknown_selection_aborts DataFrame (fun df => df) Ok (list comando)
           (list comando) [] grava Ok ambiente_sem_rede).
  simpl. apply Exists_cons_tl. apply Exists_cons_hd.
  split; [reflexivity | intuition discriminate].
Defined.

Definition submissoes_exemplo : list (submissao string) :=
  [ {| s_agora := "2025-01-01T10:00:00"; s_data := "01/01/2025 10:00";
       s_nome := "Ana"; s_respostas := respostas_empate |};
    {| s_agora := "2025-01-02T09:30:00"; s_data := "02/01/2025 09:30";
       s_nome := ""; s_respostas := respostas_exemplo |} ].


End QuizFacts.
